(** * k6_express_sqlite: the items service over an embedded SQL store

    A shallow embedding of the two versions of [routes/items.js] (the
    promise-based router and the callback-based router), of the storage
    initialisation in [database.js], and of the part of the SQLite engine
    and of the JavaScript runtime that these files rely on.

    - [Js]: truthiness, [||] defaults, [parseInt], [Math.ceil] of a quotient.
    - [Sqlite]: the [items] table, the seven SQL statements the routers
      issue, and the driver call that runs one of them.  A world carries the
      table, a script of injected storage failures and the trace of what was
      issued, so that "no statement is issued" and "executed at most n
      times" are statements about the trace.
    - [Http]: what the handlers read of a request and what they answer.
    - [PromiseRouter], [CallbackRouter]: the handlers, line by line.
    - [Storage]: [createDatabase] over a catalogue of tables.
    - [Props]: the vocabulary of the properties proved afterwards.

    Numbers are exact integers ([Z]); console logging is not modelled. *)

From Stdlib Require Import ZArith List String Ascii Bool Lia Sorted.
From Equations Require Import Equations.
Import ListNotations.

Local Open Scope string_scope.
Local Open Scope Z_scope.

(* ===================================================================== *)
(** * JavaScript values and builtins used by the handlers                *)
(* ===================================================================== *)

Module Js.

(** A field of the JSON request body, as the data model has it: absent,
    [null] or a text. *)
Inductive Field :=
| Undefined
| Null
| Str (s : string).

(** [!v] is false exactly on a non-empty text. *)
Definition truthy (v : Field) : bool :=
  match v with
  | Str s => negb (String.eqb s "")
  | _ => false
  end.

(** [n || d] on a number that may be NaN ([None]): 0 and NaN are falsy. *)
Definition num_or (n : option Z) (d : Z) : Z :=
  match n with
  | None => d
  | Some 0 => d
  | Some v => v
  end.

(** [b || false] on an optional boolean. *)
Definition bool_or_false (b : option bool) : bool :=
  match b with
  | Some true => true
  | _ => false
  end.

Definition is_space (c : ascii) : bool :=
  let n := nat_of_ascii c in
  ((9 <=? n) && (n <=? 13))%nat || (n =? 32)%nat.

Definition digit_value (c : ascii) : option Z :=
  let n := Z.of_nat (nat_of_ascii c) in
  if (48 <=? n) && (n <=? 57) then Some (n - 48)
  else if (97 <=? n) && (n <=? 122) then Some (n - 87)
  else if (65 <=? n) && (n <=? 90) then Some (n - 55)
  else None.

Fixpoint skip_spaces (s : string) : string :=
  match s with
  | String c s' => if is_space c then skip_spaces s' else s
  | EmptyString => s
  end.

(** The longest prefix of digits of the radix, as a number; [acc] is [None]
    until a first digit was read. *)
Fixpoint read_digits (radix : Z) (acc : option Z) (s : string) : option Z :=
  match s with
  | String c s' =>
      match digit_value c with
      | Some d =>
          if d <? radix
          then read_digits radix
                 (Some (match acc with Some a => a * radix + d | None => d end)) s'
          else acc
      | None => acc
      end
  | EmptyString => acc
  end.

Definition read_unsigned (s : string) : option Z :=
  match s with
  | String "0" (String "x" s') => read_digits 16 None s'
  | String "0" (String "X" s') => read_digits 16 None s'
  | _ => read_digits 10 None s
  end.

(** [parseInt(v)] for a query parameter that is absent or a text; [None] is
    NaN. *)
Definition parseInt (v : option string) : option Z :=
  match v with
  | None => None
  | Some s =>
      match skip_spaces s with
      | String "-" s' => option_map Z.opp (read_unsigned s')
      | String "+" s' => read_unsigned s'
      | s' => read_unsigned s'
      end
  end.

(** [Math.ceil(a / b)] for integers [a] and [b <> 0]: [Z.div] rounds down
    for either sign of [b]. *)
Definition ceil_div (a b : Z) : Z := - ((- a) / b).

End Js.

(* ===================================================================== *)
(** * The SQLite engine and driver, as the routers use them              *)
(* ===================================================================== *)

Module Sqlite.

(** A row of [items (id INTEGER PRIMARY KEY AUTOINCREMENT,
    name TEXT NOT NULL, description TEXT)]. *)
Record Item := mkItem {
  item_id : Z;
  item_name : string;
  item_description : option string
}.

(** A bound text parameter: [None] is SQL NULL. *)
Definition SqlText := option string.

(** [undefined] and [null] are bound as NULL. *)
Definition bind (v : Js.Field) : SqlText :=
  match v with
  | Js.Str s => Some s
  | _ => None
  end.

(** The parameter compared with [id]: the number [this.lastID] or the text
    [req.params.id]. *)
Inductive IdParam :=
| PInt (z : Z)
| PText (s : string).

(** The text-to-integer conversion that the engine applies to a text
    operand compared with the INTEGER column [id].  It is left abstract:
    the results hold for every such conversion. *)
Record Engine := { to_integer : string -> option Z }.

Record SqlError := mkError {
  code : string;
  message : string
}.

Definition busy (err : SqlError) : bool := String.eqb (code err) "SQLITE_BUSY".

Definition constraint_error : SqlError :=
  mkError "SQLITE_CONSTRAINT"
          "SQLITE_CONSTRAINT: NOT NULL constraint failed: items.name".

(** The table in rowid order, and the AUTOINCREMENT high-water mark. *)
Record Db := mkDb {
  rows : list Item;
  seq : Z
}.

(** What [this] holds in a [db.run] callback.  [lastID] is meaningful after
    an INSERT only; the routers read it there only. *)
Record RunInfo := mkRun {
  lastID : Z;
  changes : Z
}.

(** The SQL texts of the two routers, with their parameters. *)
Inductive Stmt :=
| SelectPage (limit offset : Z)
    (* SELECT * FROM items LIMIT ? OFFSET ? *)
| SelectCount
    (* SELECT COUNT( * ) AS count FROM items *)
| SelectById (p : IdParam)
    (* SELECT * FROM items WHERE id = ? *)
| SelectLastByNameDesc (n d : SqlText)
    (* SELECT * FROM items WHERE name = ? AND description = ?
       ORDER BY id DESC LIMIT 1 *)
| Insert (n d : SqlText)
    (* INSERT INTO items (name, description) VALUES (?, ?) *)
| Update (n d : SqlText) (p : IdParam)
    (* UPDATE items SET name = ?, description = ? WHERE id = ? *)
| Delete (p : IdParam).
    (* DELETE FROM items WHERE id = ? *)

Definition result_type (s : Stmt) : Type :=
  match s with
  | SelectPage _ _ => list Item
  | SelectCount => Z
  | SelectById _ => option Item
  | SelectLastByNameDesc _ _ => option Item
  | Insert _ _ => RunInfo
  | Update _ _ _ => RunInfo
  | Delete _ => RunInfo
  end.

Definition is_write (s : Stmt) : bool :=
  match s with
  | Insert _ _ | Update _ _ _ | Delete _ => true
  | _ => false
  end.

Section Engine.

Variable db : Engine.

(** [id = ?] *)
Definition id_is (p : IdParam) (i : Item) : bool :=
  match p with
  | PInt z => item_id i =? z
  | PText s =>
      match to_integer db s with
      | Some z => item_id i =? z
      | None => false
      end
  end.

(** [column = ?] is true only between two non-NULL equal texts. *)
Definition sql_eq (a b : SqlText) : bool :=
  match a, b with
  | Some x, Some y => String.eqb x y
  | _, _ => false
  end.

(** [LIMIT l OFFSET o]: a negative offset counts as 0, a negative limit as
    no limit. *)
Definition limit_offset (l o : Z) (rs : list Item) : list Item :=
  let rest := skipn (Z.to_nat o) rs in
  if l <? 0 then rest else firstn (Z.to_nat l) rest.

(** [ORDER BY id DESC LIMIT 1] *)
Definition greatest_id (rs : list Item) : option Item :=
  fold_left
    (fun best i =>
       match best with
       | Some b => if item_id b <? item_id i then Some i else Some b
       | None => Some i
       end)
    rs None.

Definition max_rowid (rs : list Item) : Z :=
  fold_right (fun i m => Z.max (item_id i) m) 0 rs.

(** The id an AUTOINCREMENT insert assigns: one more than every id the
    table holds or has ever assigned. *)
Definition next_id (d : Db) : Z := Z.max (seq d) (max_rowid (rows d)) + 1.

Definition count (f : Item -> bool) (rs : list Item) : Z :=
  Z.of_nat (List.length (filter f rs)).

Definition set_fields (n : string) (d : SqlText) (i : Item) : Item :=
  mkItem (item_id i) n d.

(** One statement against the table. *)
Definition exec (s : Stmt) (d : Db) : SqlError + (result_type s * Db) :=
  match s return SqlError + (result_type s * Db) with
  | SelectPage l o => inr (limit_offset l o (rows d), d)
  | SelectCount => inr (Z.of_nat (List.length (rows d)), d)
  | SelectById p => inr (find (id_is p) (rows d), d)
  | SelectLastByNameDesc n ds =>
      inr (greatest_id
             (filter (fun i => sql_eq (Some (item_name i)) n
                               && sql_eq (item_description i) ds) (rows d)),
           d)
  | Insert n ds =>
      match n with
      | None => inl constraint_error
      | Some nm =>
          let i := next_id d in
          inr (mkRun i 1, mkDb (rows d ++ [mkItem i nm ds]) i)
      end
  | Update n ds p =>
      match n with
      | None =>
          if existsb (id_is p) (rows d) then inl constraint_error
          else inr (mkRun 0 0, d)
      | Some nm =>
          inr (mkRun 0 (count (id_is p) (rows d)),
               mkDb (map (fun i => if id_is p i then set_fields nm ds i else i)
                         (rows d))
                    (seq d))
      end
  | Delete p =>
      inr (mkRun 0 (count (id_is p) (rows d)),
           mkDb (filter (fun i => negb (id_is p i)) (rows d)) (seq d))
  end.

(** What the process did to the outside, in order. *)
Inductive Event :=
| Issued (s : Stmt)
| Waited (ms : Z).

(** The store, the storage failures still to come (one entry per statement
    issued, [None] for a statement that runs; past the end every statement
    runs), and the trace so far. *)
Record World := mkWorld {
  store : Db;
  faults : list (option SqlError);
  trace : list Event
}.

Definition log (e : Event) (w : World) : World :=
  mkWorld (store w) (faults w) (trace w ++ [e]).

(** [setTimeout(..., ms)] *)
Definition wait (ms : Z) (w : World) : World := log (Waited ms) w.

(** A driver call [db.all / db.get / db.run (sql, params, callback)]: the
    pair is what the callback receives ([err], or the rows, the row, or
    [this]) and the world when it is called. *)
Definition db_exec (s : Stmt) (w : World)
  : (SqlError + result_type s) * World :=
  let w1 := log (Issued s) w in
  match faults w1 with
  | Some err :: fs => (inl err, mkWorld (store w1) fs (trace w1))
  | fs =>
      match exec s (store w1) with
      | inl err => (inl err, mkWorld (store w1) (tl fs) (trace w1))
      | inr (r, d) => (inr r, mkWorld d (tl fs) (trace w1))
      end
  end.

End Engine.

(** A concrete conversion for examples: a text made of decimal digits,
    with an optional minus sign before them. *)
Fixpoint decimal_digits (acc : Z) (s : string) : option Z :=
  match s with
  | EmptyString => Some acc
  | String c s' =>
      match Js.digit_value c with
      | Some d => if d <? 10 then decimal_digits (acc * 10 + d) s' else None
      | None => None
      end
  end.

Definition decimal (s : string) : option Z :=
  match s with
  | EmptyString => None
  | String "-" EmptyString => None
  | String "-" s' => option_map Z.opp (decimal_digits 0 s')
  | _ => decimal_digits 0 s
  end.

Definition decimal_engine : Engine := {| to_integer := decimal |}.

End Sqlite.

(* ===================================================================== *)
(** * Requests and responses                                             *)
(* ===================================================================== *)

Module Http.
Import Sqlite.

(** What the handlers read of a request: [req.query.page],
    [req.query.limit], [req.params.id] and the two fields destructured from
    [req.body]. *)
Record Request := mkRequest {
  query_page : option string;
  query_limit : option string;
  params_id : string;
  body_name : Js.Field;
  body_description : Js.Field
}.

Record Pagination := mkPagination {
  totalItems : Z;
  totalPages : Z;
  currentPage : Z;
  pageSize : Z
}.

(** The argument of [res.json]. *)
Inductive Json :=
| JError (error : string)                          (* { error } *)
| JMessage (msg : string)                          (* { message } *)
| JRow (row : option Item)                         (* a row, or undefined *)
| JPage (items : list Item) (pagination : Pagination).

Record Response := mkResponse {
  status : Z;
  body : Json
}.

(** [res.json(b)] *)
Definition json (b : Json) : Response := mkResponse 200 b.

(** [res.status(c).json(b)] *)
Definition status_json (c : Z) (b : Json) : Response := mkResponse c b.

(** [itemsRouter]'s second argument; [None] is a field left out.  The
    maximum number of retries is a count. *)
Record Options := mkOptions {
  retryOnBusy : option bool;
  opt_maxRetries : option N;
  opt_retryDelay : option Z
}.

Inductive Route :=
| GET_items          (* router.get("/") *)
| GET_item           (* router.get("/:id") *)
| POST_item          (* router.post("/") *)
| PUT_item           (* router.put("/:id") *)
| DELETE_item.       (* router.delete("/:id") *)

(** Remembers in a [with] clause which way a test went. *)
Definition inspect {A} (a : A) : { b : A | a = b } := exist _ a eq_refl.

End Http.

(* ===================================================================== *)
(** * The promise-based router                                           *)
(* ===================================================================== *)

Module PromiseRouter.
Import Sqlite Http.

(** An awaited computation: it settles with an error thrown or a value. *)
Definition Promise (A : Type) : Type := World -> (SqlError + A) * World.

Definition resolve {A} (a : A) : Promise A := fun w => (inr a, w).

Definition and_then {A B} (p : Promise A) (k : A -> Promise B) : Promise B :=
  fun w =>
    match p w with
    | (inr a, w1) => k a w1
    | (inl err, w1) => (inl err, w1)
    end.

Notation "x <- p ;; k" := (and_then p (fun x => k))
  (at level 100, p at next level, right associativity).

(** [try { body } catch (err) { handler }] *)
Definition try_catch {A} (body : Promise A) (handler : SqlError -> A)
  : World -> A * World :=
  fun w =>
    match body w with
    | (inr a, w1) => (a, w1)
    | (inl err, w1) => (handler err, w1)
    end.

Section itemsRouter.

Variable db : Engine.
Variable options : Options.

Definition shouldRetry : bool := Js.bool_or_false (retryOnBusy options).
Definition maxRetries : Z :=
  Js.num_or (option_map Z.of_N (opt_maxRetries options)) 3.
Definition retryDelay : Z := Js.num_or (opt_retryDelay options) 100.

(** [promisify(db.all).bind(db)] and [promisify(db.get).bind(db)] *)
Definition dbAll (s : Stmt) : Promise (result_type s) := db_exec db s.
Definition dbGet (s : Stmt) : Promise (result_type s) := db_exec db s.

(** [promisify(db.run).bind(db)]: the promise resolves with the callback's
    second argument, which [db.run] never passes; [this] is lost. *)
Definition dbRun (s : Stmt) : Promise unit :=
  fun w => let (r, w1) := db_exec db s w in
           (match r with inl err => inl err | inr _ => inr tt end, w1).

Equations? retryOperation {A} (operation : Promise A) (retries : Z) (w : World)
  : (SqlError + A) * World by wf (Z.to_nat retries) lt :=
retryOperation operation retries w with operation w := {
  | (inr v, w1) := (inr v, w1);
  | (inl err, w1)
      with inspect (shouldRetry && busy err && (retries >? 0)) := {
      | exist _ true H :=
          retryOperation operation (retries - 1) (wait retryDelay w1);
      | exist _ false _ := (inl err, w1) } }.
Proof.
  apply andb_prop in H as [_ H]. apply Z.gtb_lt in H. lia.
Qed.

Definition getAllItems (req : Request) : World -> Response * World :=
  try_catch
    (let page := Js.num_or (Js.parseInt (query_page req)) 1 in
     let limit := Js.num_or (Js.parseInt (query_limit req)) 10 in
     let offset := (page - 1) * limit in
     rows <- dbAll (SelectPage limit offset) ;;
     result <- dbGet SelectCount ;;
     let totalItems := result in
     let totalPages := Js.ceil_div totalItems limit in
     resolve (json (JPage rows (mkPagination totalItems totalPages page limit))))
    (fun err => status_json 500 (JError (message err))).

Definition getItemById (req : Request) : World -> Response * World :=
  try_catch
    (row <- dbGet (SelectById (PText (params_id req))) ;;
     match row with
     | None => resolve (status_json 404 (JError "Item not found"))
     | Some _ => resolve (json (JRow row))
     end)
    (fun err => status_json 500 (JError (message err))).

Definition createNewItem (req : Request) : World -> Response * World :=
  let name := body_name req in
  let description := body_description req in
  if negb (Js.truthy name)
  then fun w => (status_json 400 (JError "Name is required"), w)
  else
    try_catch
      (_ <- retryOperation (dbRun (Insert (bind name) (bind description)))
              maxRetries ;;
       row <- dbGet (SelectLastByNameDesc (bind name) (bind description)) ;;
       resolve (json (JRow row)))
      (fun err => status_json 500 (JError (message err))).

Definition updateItem (req : Request) : World -> Response * World :=
  let name := body_name req in
  let description := body_description req in
  if negb (Js.truthy name)
  then fun w => (status_json 400 (JError "Name is required"), w)
  else
    try_catch
      (_ <- retryOperation
              (dbRun (Update (bind name) (bind description)
                             (PText (params_id req))))
              maxRetries ;;
       row <- dbGet (SelectById (PText (params_id req))) ;;
       match row with
       | None => resolve (status_json 404 (JError "Item not found"))
       | Some _ => resolve (json (JRow row))
       end)
      (fun err => status_json 500 (JError (message err))).

Definition deleteItem (req : Request) : World -> Response * World :=
  try_catch
    (_ <- retryOperation (dbRun (Delete (PText (params_id req)))) maxRetries ;;
     row <- dbGet (SelectById (PText (params_id req))) ;;
     match row with
     | Some _ => resolve (status_json 404 (JError "Item not found"))
     | None => resolve (json (JMessage "Item deleted"))
     end)
    (fun err => status_json 500 (JError (message err))).

Definition itemsRouter (route : Route) : Request -> World -> Response * World :=
  match route with
  | GET_items => getAllItems
  | GET_item => getItemById
  | POST_item => createNewItem
  | PUT_item => updateItem
  | DELETE_item => deleteItem
  end.

End itemsRouter.

End PromiseRouter.

(* ===================================================================== *)
(** * The callback-based router                                          *)
(* ===================================================================== *)

Module CallbackRouter.
Import Sqlite Http.

Section itemsRouter.

Variable db : Engine.
Variable options : Options.

Definition shouldRetry : bool := Js.bool_or_false (retryOnBusy options).
Definition maxRetries : Z :=
  Js.num_or (option_map Z.of_N (opt_maxRetries options)) 3.
Definition retryDelay : Z := Js.num_or (opt_retryDelay options) 100.

(** [router.get("/", ...)] *)
Definition router_get (req : Request) (w : World) : Response * World :=
  let page := Js.num_or (Js.parseInt (query_page req)) 1 in
  let limit := Js.num_or (Js.parseInt (query_limit req)) 10 in
  let offset := (page - 1) * limit in
  match db_exec db (SelectPage limit offset) w with
  | (inl err, w1) => (status_json 500 (JError (message err)), w1)
  | (inr rows, w1) =>
      match db_exec db SelectCount w1 with
      | (inl err, w2) => (status_json 500 (JError (message err)), w2)
      | (inr result, w2) =>
          let totalItems := result in
          let totalPages := Js.ceil_div totalItems limit in
          (json (JPage rows (mkPagination totalItems totalPages page limit)), w2)
      end
  end.

(** [router.get("/:id", ...)] *)
Definition router_get_id (req : Request) (w : World) : Response * World :=
  match db_exec db (SelectById (PText (params_id req))) w with
  | (inl err, w1) => (status_json 500 (JError (message err)), w1)
  | (inr None, w1) => (status_json 404 (JError "Item not found"), w1)
  | (inr (Some i), w1) => (json (JRow (Some i)), w1)
  end.

Equations? performInsert (name description : Js.Field) (retries : Z) (w : World)
  : Response * World by wf (Z.to_nat retries) lt :=
performInsert name description retries w
  with db_exec db (Insert (bind name) (bind description)) w := {
  | (inl err, w1)
      with inspect (shouldRetry && busy err && (retries >? 0)) := {
      | exist _ true H :=
          performInsert name description (retries - 1) (wait retryDelay w1);
      | exist _ false _ := (status_json 500 (JError (message err)), w1) };
  | (inr this, w1) with db_exec db (SelectById (PInt (lastID this))) w1 := {
      | (inl err, w2) := (status_json 500 (JError (message err)), w2);
      | (inr row, w2) := (json (JRow row), w2) } }.
Proof.
  apply andb_prop in H as [_ H]. apply Z.gtb_lt in H. lia.
Qed.

(** [router.post("/", ...)] *)
Definition router_post (req : Request) (w : World) : Response * World :=
  let name := body_name req in
  let description := body_description req in
  if negb (Js.truthy name)
  then (status_json 400 (JError "Name is required"), w)
  else performInsert name description maxRetries w.

Equations? performUpdate (req : Request) (name description : Js.Field)
  (retries : Z) (w : World) : Response * World by wf (Z.to_nat retries) lt :=
performUpdate req name description retries w
  with db_exec db (Update (bind name) (bind description)
                          (PText (params_id req))) w := {
  | (inl err, w1)
      with inspect (shouldRetry && busy err && (retries >? 0)) := {
      | exist _ true H :=
          performUpdate req name description (retries - 1)
                        (wait retryDelay w1);
      | exist _ false _ := (status_json 500 (JError (message err)), w1) };
  | (inr this, w1) with changes this =? 0 := {
      | true := (status_json 404 (JError "Item not found"), w1);
      | false with db_exec db (SelectById (PText (params_id req))) w1 := {
          | (inl err, w2) := (status_json 500 (JError (message err)), w2);
          | (inr row, w2) := (json (JRow row), w2) } } }.
Proof.
  apply andb_prop in H as [_ H]. apply Z.gtb_lt in H. lia.
Qed.

(** [router.put("/:id", ...)] *)
Definition router_put (req : Request) (w : World) : Response * World :=
  let name := body_name req in
  let description := body_description req in
  if negb (Js.truthy name)
  then (status_json 400 (JError "Name is required"), w)
  else performUpdate req name description maxRetries w.

Equations? performDelete (req : Request) (retries : Z) (w : World)
  : Response * World by wf (Z.to_nat retries) lt :=
performDelete req retries w
  with db_exec db (Delete (PText (params_id req))) w := {
  | (inl err, w1)
      with inspect (shouldRetry && busy err && (retries >? 0)) := {
      | exist _ true H := performDelete req (retries - 1) (wait retryDelay w1);
      | exist _ false _ := (status_json 500 (JError (message err)), w1) };
  | (inr this, w1) with changes this =? 0 := {
      | true := (status_json 404 (JError "Item not found"), w1);
      | false := (json (JMessage "Item deleted"), w1) } }.
Proof.
  apply andb_prop in H as [_ H]. apply Z.gtb_lt in H. lia.
Qed.

(** [router.delete("/:id", ...)] *)
Definition router_delete (req : Request) (w : World) : Response * World :=
  performDelete req maxRetries w.

Definition itemsRouter (route : Route) : Request -> World -> Response * World :=
  match route with
  | GET_items => router_get
  | GET_item => router_get_id
  | POST_item => router_post
  | PUT_item => router_put
  | DELETE_item => router_delete
  end.

End itemsRouter.

End CallbackRouter.

(* ===================================================================== *)
(** * Storage initialisation ([database.js])                             *)
(* ===================================================================== *)

Module Storage.
Import Sqlite.

Record Column := mkColumn {
  column_name : string;
  column_type : string;
  not_null : bool;
  primary_key : bool;
  autoincrement : bool
}.

Definition Schema := list Column.

(** What persists in the database file: the journal mode and the catalogue
    of tables. *)
Record File := mkFile {
  journal_mode : string;
  tables : list (string * Schema)
}.

(** The settings of one connection. *)
Record Settings := mkSettings {
  synchronous : string;
  temp_store : string;
  mmap_size : Z
}.

(** An open handle: the file it is on, its settings, and whether an
    ["error"] listener is registered. *)
Record Handle := mkHandle {
  file : File;
  settings : Settings;
  on_error : bool
}.

Inductive Query :=
| PRAGMA_journal_mode (mode : string)
| PRAGMA_synchronous (level : string)
| PRAGMA_temp_store (place : string)
| PRAGMA_mmap_size (bytes : Z)
| CREATE_TABLE (if_not_exists : bool) (name : string) (columns : Schema).

Definition has_table (name : string) (f : File) : bool :=
  existsb (fun t => String.eqb (fst t) name) (tables f).

Definition table_exists_error (name : string) : SqlError :=
  mkError "SQLITE_ERROR" ("SQLITE_ERROR: table " ++ name ++ " already exists").

(** One statement of the initialisation against an open handle.  Creating
    a table that exists is an error unless the statement says
    IF NOT EXISTS, in which case it does nothing. *)
Definition run (q : Query) (h : Handle) : SqlError + Handle :=
  match q with
  | PRAGMA_journal_mode m =>
      inr (mkHandle (mkFile m (tables (file h))) (settings h) (on_error h))
  | PRAGMA_synchronous l =>
      inr (mkHandle (file h)
             (mkSettings l (temp_store (settings h)) (mmap_size (settings h)))
             (on_error h))
  | PRAGMA_temp_store p =>
      inr (mkHandle (file h)
             (mkSettings (synchronous (settings h)) p (mmap_size (settings h)))
             (on_error h))
  | PRAGMA_mmap_size b =>
      inr (mkHandle (file h)
             (mkSettings (synchronous (settings h)) (temp_store (settings h)) b)
             (on_error h))
  | CREATE_TABLE ine name cols =>
      if has_table name (file h)
      then if ine then inr h else inl (table_exists_error name)
      else inr (mkHandle
                  (mkFile (journal_mode (file h))
                          (tables (file h) ++ [(name, cols)]))
                  (settings h) (on_error h))
  end.

(** [new sqlite3.Database(path, OPEN_READWRITE | OPEN_CREATE |
    OPEN_SHAREDCACHE, cb)]: a file that is not there is created empty. *)
Definition open (disk : option File) : SqlError + Handle :=
  inr (mkHandle
         (match disk with
          | Some f => f
          | None => mkFile "delete" []
          end)
         (mkSettings "FULL" "DEFAULT" 0) false).

(** [runQuery(db, query)] *)
Definition runQuery (db : Handle) (query : Query) : SqlError + Handle :=
  run query db.

(** [await Promise.all([...])] over queries on one handle: they run in
    turn, and the first rejection is the result. *)
Fixpoint run_all (db : Handle) (queries : list Query) : SqlError + Handle :=
  match queries with
  | [] => inr db
  | q :: qs =>
      match runQuery db q with
      | inl err => inl err
      | inr db1 => run_all db1 qs
      end
  end.

Definition items_schema : Schema :=
  [ mkColumn "id" "INTEGER" false true true;
    mkColumn "name" "TEXT" true false false;
    mkColumn "description" "TEXT" false false false ].

(** How [createDatabase] ends: it returns the handle or the process exits. *)
Inductive Outcome :=
| Returned (db : Handle)
| Exited (exit_code : Z).

Definition createDatabase (disk : option File) : Outcome :=
  match
    match open disk with
    | inl err => inl err
    | inr db =>
        match run_all db [ PRAGMA_journal_mode "WAL";
                           PRAGMA_synchronous "NORMAL";
                           PRAGMA_temp_store "MEMORY";
                           PRAGMA_mmap_size 30000000000 ] with
        | inl err => inl err
        | inr db1 =>
            match runQuery db1 (CREATE_TABLE true "items" items_schema) with
            | inl err => inl err
            | inr db2 =>
                inr (mkHandle (file db2) (settings db2) true)
            end
        end
    end
  with
  | inr db => Returned db
  | inl _ => Exited 1
  end.

(** The catalogue of a database file names each table once. *)
Definition well_formed (disk : option File) : Prop :=
  match disk with
  | Some f => NoDup (map fst (tables f))
  | None => True
  end.

Definition tables_named (name : string) (f : File) : list Schema :=
  map snd (filter (fun t => String.eqb (fst t) name) (tables f)).

End Storage.

(* ===================================================================== *)
(** * Vocabulary of the properties                                       *)
(* ===================================================================== *)

Local Open Scope list_scope.

Module Props.
Import Sqlite Http.

(** How many times a write statement was issued in a trace. *)
Definition executions (t : list Event) : Z :=
  Z.of_nat
    (List.length
       (filter (fun e => match e with Issued s => is_write s | _ => false end) t)).



(** Ascending id, which is insertion order. *)
Definition ascending (rs : list Item) : Prop :=
  StronglySorted (fun a b => item_id a < item_id b) rs.

(** The rows at positions [lo] to [hi] of a list whose first row is at
    position [k]. *)
Fixpoint positions_from (k lo hi : Z) (rs : list Item) : list Item :=
  match rs with
  | [] => []
  | r :: rs' =>
      (if (lo <=? k) && (k <=? hi) then [r] else [])
        ++ positions_from (k + 1) lo hi rs'
  end.

(** The rows at insertion-order positions [lo] to [hi], counted from 1. *)
Definition positions (lo hi : Z) (rs : list Item) : list Item :=
  positions_from 1 lo hi rs.



(** No failure is scripted for the statements to come. *)
Definition fault_free (w : World) : Prop := faults w = [].

(** The next [k] statements fail with [err], the one after runs. *)
Definition fails_times (k : nat) (err : SqlError) (w : World) : Prop :=
  exists rest, faults w = repeat (Some err) k ++ rest /\ hd None rest = None.

(** At least the next [k] statements fail with [err]. *)
Definition keeps_failing (k : nat) (err : SqlError) (w : World) : Prop :=
  exists rest, faults w = repeat (Some err) k ++ rest.

(** The world after [k] attempts at [s] that each failed on a scripted
    failure and were each followed by a wait of [ms]. *)
Fixpoint after_failures (k : nat) (s : Stmt) (ms : Z) (w : World) : World :=
  match k with
  | O => w
  | S k' =>
      after_failures k' s ms
        (wait ms (mkWorld (store w) (tl (faults w)) (trace w ++ [Issued s])))
  end.

(** What the callback of the INSERT does with its outcome once the loop is
    over. *)
Definition after_insert (db : Engine) (r : SqlError + RunInfo) (w1 : World)
  : Response * World :=
  match r with
  | inl err => (status_json 500 (JError (message err)), w1)
  | inr this =>
      match db_exec db (SelectById (PInt (lastID this))) w1 with
      | (inl err, w2) => (status_json 500 (JError (message err)), w2)
      | (inr row, w2) => (json (JRow row), w2)
      end
  end.

(** The same for the UPDATE. *)
Definition after_update (db : Engine) (req : Request)
  (r : SqlError + RunInfo) (w1 : World) : Response * World :=
  match r with
  | inl err => (status_json 500 (JError (message err)), w1)
  | inr this =>
      if changes this =? 0
      then (status_json 404 (JError "Item not found"), w1)
      else
        match db_exec db (SelectById (PText (params_id req))) w1 with
        | (inl err, w2) => (status_json 500 (JError (message err)), w2)
        | (inr row, w2) => (json (JRow row), w2)
        end
  end.

(** The same for the DELETE. *)
Definition after_delete (r : SqlError + RunInfo) (w1 : World)
  : Response * World :=
  match r with
  | inl err => (status_json 500 (JError (message err)), w1)
  | inr this =>
      if changes this =? 0
      then (status_json 404 (JError "Item not found"), w1)
      else (json (JMessage "Item deleted"), w1)
  end.

(** The page and the limit a List request asks for, after defaulting. *)
Definition page_of (req : Request) : Z :=
  Js.num_or (Js.parseInt (query_page req)) 1.

Definition limit_of (req : Request) : Z :=
  Js.num_or (Js.parseInt (query_limit req)) 10.

Definition busy_error : SqlError :=
  mkError "SQLITE_BUSY" "SQLITE_BUSY: database is locked".

Definition no_options : Options := mkOptions None None None.

Definition retry_options : Options := mkOptions (Some true) None None.

Definition empty_world : World := mkWorld (mkDb [] 0) [] [].

Definition world_of (rs : list Item) (sq : Z) : World :=
  mkWorld (mkDb rs sq) [] [].

Definition three_items : World :=
  world_of [mkItem 1 "a" None; mkItem 2 "b" (Some "two"); mkItem 3 "c" None] 3.

(** The requests on which the two slips of the promise router do not
    show: a Create that is rejected for its name or has a text description,
    a Delete of an id that a row has, and every other request. *)
Definition avoids_slips (db : Engine) (route : Route) (req : Request) (d : Db)
  : bool :=
  match route with
  | POST_item =>
      negb (Js.truthy (body_name req))
      || match body_description req with Js.Str _ => true | _ => false end
  | DELETE_item => existsb (id_is db (PText (params_id req))) (rows d)
  | _ => true
  end.

(** A sequence of requests served one after the other. *)
Fixpoint serve (router : Route -> Request -> World -> Response * World)
  (reqs : list (Route * Request)) (w : World) : list Response * World :=
  match reqs with
  | [] => ([], w)
  | (route, req) :: rest =>
      let (r, w1) := router route req w in
      let (rs, w2) := serve router rest w1 in
      (r :: rs, w2)
  end.

(** Every request of the sequence avoids the slips in the store it meets. *)
Fixpoint all_avoid_slips (db : Engine)
  (router : Route -> Request -> World -> Response * World)
  (reqs : list (Route * Request)) (w : World) : bool :=
  match reqs with
  | [] => true
  | (route, req) :: rest =>
      avoids_slips db route req (store w)
      && all_avoid_slips db router rest (snd (router route req w))
  end.

(** Requests by route. *)
Definition list_request (page limit : option string) : Request :=
  mkRequest page limit "" Js.Undefined Js.Undefined.

Definition id_request (id : string) : Request :=
  mkRequest None None id Js.Undefined Js.Undefined.

Definition body_request (id : string) (name description : Js.Field) : Request :=
  mkRequest None None id name description.

(** The scenario of the load test and of the test suite: create, read,
    update, delete, read again. *)
Definition scenario : list (Route * Request) :=
  [ (POST_item, body_request "" (Js.Str "TestItem") (Js.Str "Test description"));
    (GET_item, id_request "1");
    (PUT_item,
     body_request "1" (Js.Str "UpdatedItem") (Js.Str "Updated description"));
    (DELETE_item, id_request "1");
    (GET_item, id_request "1") ].

(** Storage failures for the scenario: the INSERT is busy twice, the
    UPDATE once and the DELETE three times. *)
Definition busy_writes : list (option SqlError) :=
  [ Some busy_error; Some busy_error; None; None; None;
    Some busy_error; None; None;
    Some busy_error; Some busy_error; Some busy_error ].

Definition scenario_responses : list Response :=
  [ json (JRow (Some (mkItem 1 "TestItem" (Some "Test description"))));
    json (JRow (Some (mkItem 1 "TestItem" (Some "Test description"))));
    json (JRow (Some (mkItem 1 "UpdatedItem" (Some "Updated description"))));
    json (JMessage "Item deleted");
    status_json 404 (JError "Item not found") ].

End Props.

From Stdlib Require DecimalString DecimalZ DecimalPos.

(* ===================================================================== *)
(** * The application ([app.js]) and the earlier [createDatabase]        *)
(* ===================================================================== *)

Module App.
Import Sqlite Http.

(** [process.argv.includes("--retries")] *)
Definition retries (argv : list string) : bool :=
  existsb (String.eqb "--retries") argv.

(** The second argument of [itemsRouter] in
    [app.use("/items", itemsRouter(db, { retryOnBusy: retries }))]. *)
Definition options (argv : list string) : Options :=
  mkOptions (Some (retries argv)) None None.

End App.

Module LegacyStorage.
Import Sqlite Storage.

(** The callback version of [createDatabase], once the callbacks of the
    open and of its two statements have run: WAL, then the table; any error
    exits the process. *)
Definition createDatabase (disk : option File) : Outcome :=
  match open disk with
  | inl _ => Exited 1
  | inr db =>
      match run (PRAGMA_journal_mode "WAL") db with
      | inl _ => Exited 1
      | inr db1 =>
          match run (CREATE_TABLE true "items" items_schema) db1 with
          | inl _ => Exited 1
          | inr db2 => Returned (mkHandle (file db2) (settings db2) true)
          end
      end
  end.

End LegacyStorage.

(* ===================================================================== *)
(** * The load-test script ([vus], checks and the loop of one iteration) *)
(* ===================================================================== *)

Module LoadTest.
Import Sqlite Http Props.

(** A number in a template literal. *)
Definition show (z : Z) : string :=
  DecimalString.NilZero.string_of_int (Z.to_int z).

(** What the checks read of [JSON.parse(r.body)]: [None] when the body is
    empty and [JSON.parse] throws, else the field, [None] for undefined. *)
Definition parsed_id (r : Response) : option (option Z) :=
  match body r with
  | JRow None => None
  | JRow (Some i) => Some (Some (item_id i))
  | _ => Some None
  end.

Definition parsed_name (r : Response) : option (option string) :=
  match body r with
  | JRow None => None
  | JRow (Some i) => Some (Some (item_name i))
  | _ => Some None
  end.

Definition parsed_message (r : Response) : option (option string) :=
  match body r with
  | JRow None => None
  | JMessage m => Some (Some m)
  | _ => Some None
  end.

(** [check(response, { ... })]: how many of its checks fail. *)
Definition failures (checks : list bool) : nat :=
  List.length (filter negb checks).

Definition same_id (a : option Z) (b : Z) : bool :=
  match a with Some z => z =? b | None => false end.

Definition same_text (a : option string) (b : string) : bool :=
  match a with Some t => String.eqb t b | None => false end.

Section Script.

(** The service under test. *)
Variable service : Route -> Request -> World -> Response * World.

(** The update and the delete of the items whose index is a multiple of 5.
    The result is the world and the failed checks so far, or [None] when a
    check throws. *)
Definition update_and_delete (i : nat) (createdId : Z) (w : World) (failed : nat)
  : option (World * nat) :=
  let updatePayload :=
    body_request (show createdId)
      (Js.Str (String.append "Updated Item " (show (Z.of_nat i))))
      (Js.Str (String.append "Updated Description for item " (show (Z.of_nat i)))) in
  let (updateResponse, w1) := service PUT_item updatePayload w in
  match parsed_id updateResponse, parsed_name updateResponse with
  | Some uid, Some uname =>
      let failed1 :=
        Nat.add failed
          (failures [status updateResponse =? 200;
                     same_id uid createdId;
                     same_text uname
                       (String.append "Updated Item " (show (Z.of_nat i)))]) in
      let (deleteResponse, w2) := service DELETE_item (id_request (show createdId)) w1 in
      match parsed_message deleteResponse with
      | Some msg =>
          Some (w2,
                Nat.add failed1
                  (failures [status deleteResponse =? 200;
                             same_text msg "Item deleted"]))
      | None => None
      end
  | _, _ => None
  end.

(** The body of the loop for index [i]. *)
Definition step (i : nat) (w : World) (failed : nat) : option (World * nat) :=
  let payload :=
    body_request ""
      (Js.Str (String.append "Test Item " (show (Z.of_nat i))))
      (Js.Str (String.append "Test Description for item " (show (Z.of_nat i)))) in
  let (response, w1) := service POST_item payload w in
  match parsed_id response with
  | None => None
  | Some id =>
      let returns_id := match id with Some _ => true | None => false end in
      let createSuccess := (status response =? 200) && returns_id in
      let failed1 :=
        Nat.add failed (failures [status response =? 200; returns_id]) in
      if createSuccess then
        match id with
        | None => Some (w1, failed1)
        | Some createdId =>
            let (response2, w2) :=
              service GET_item (id_request (show createdId)) w1 in
            match parsed_id response2 with
            | None => None
            | Some gid =>
                let failed2 :=
                  Nat.add failed1
                    (failures [status response2 =? 200; same_id gid createdId]) in
                if (i mod 5 =? 0)%nat
                then update_and_delete i createdId w2 failed2
                else Some (w2, failed2)
            end
        end
      else Some (w1, failed1)
  end.

(** [for (let i = ...; i < ...; i++)], [n] indices from [i] on. *)
Fixpoint loop (n i : nat) (w : World) (failed : nat) : option (World * nat) :=
  match n with
  | O => Some (w, failed)
  | S n' =>
      match step i w failed with
      | Some (w1, failed1) => loop n' (S i) w1 failed1
      | None => None
      end
  end.

(** One iteration of a virtual user: indices 0 to 99. *)
Definition iteration (w : World) : option (World * nat) := loop 100 0 w 0.

End Script.

(** An engine that reads the decimal texts [show] writes. *)
Definition decimal_text_engine : Engine :=
  {| to_integer := fun s =>
       option_map Z.of_int (DecimalString.NilZero.int_of_string s) |}.

End LoadTest.

(* ===================================================================== *)
(** * More vocabulary                                                    *)
(* ===================================================================== *)

Module Facts.
Import Sqlite Http Props.

(** The trace of a statement attempted [n + 1] times with a wait of [ms]
    after each of the first [n] attempts. *)
Definition attempts_trace (n : nat) (s : Stmt) (ms : Z) : list Event :=
  List.concat (repeat [Issued s; Waited ms] n) ++ [Issued s].

(** No row has an id above the AUTOINCREMENT mark. *)
Definition ids_bounded (d : Db) : Prop :=
  forall i, In i (rows d) -> item_id i <= seq d.



(** A handler of the promise router or of the callback router. *)
Definition get_handlers (db : Engine)
  : list (Request -> World -> Response * World) :=
  [PromiseRouter.getItemById db; CallbackRouter.router_get_id db].

Definition list_handlers (db : Engine)
  : list (Request -> World -> Response * World) :=
  [PromiseRouter.getAllItems db; CallbackRouter.router_get db].

Definition create_handlers (db : Engine) (options : Options)
  : list (Request -> World -> Response * World) :=
  [PromiseRouter.createNewItem db options; CallbackRouter.router_post db options].

Definition update_handlers (db : Engine) (options : Options)
  : list (Request -> World -> Response * World) :=
  [PromiseRouter.updateItem db options; CallbackRouter.router_put db options].

Definition delete_handlers (db : Engine) (options : Options)
  : list (Request -> World -> Response * World) :=
  [PromiseRouter.deleteItem db options; CallbackRouter.router_delete db options].

Definition routers (db : Engine) (options : Options)
  : list (Route -> Request -> World -> Response * World) :=
  [PromiseRouter.itemsRouter db options; CallbackRouter.itemsRouter db options].

(** The indices of the load script, [n] from [i] on, whose item it leaves
    in the table: those it does not update and delete. *)
Definition kept (n i : nat) : list nat :=
  filter (fun j => negb (j mod 5 =? 0)%nat) (List.seq i n).

(** The item the load script creates at index [j], under the id [id]. *)
Definition test_item (id : Z) (j : nat) : Item :=
  mkItem id
    (String.append "Test Item " (LoadTest.show (Z.of_nat j)))
    (Some (String.append "Test Description for item "
             (LoadTest.show (Z.of_nat j)))).

End Facts.

(* ===================================================================== *)
(** * The models run                                                     *)
(* ===================================================================== *)

Import Sqlite Http Props.

(** [parseInt], the ceiling, and the scenario on both routers, without and
    with busy failures on the way. *)

Example parseInt_runs :
  Js.parseInt (Some " -12px") = Some (-12)
  /\ Js.parseInt (Some "0x1f") = Some 31
  /\ Js.parseInt (Some "abc") = None
  /\ Js.parseInt (Some "") = None
  /\ Js.parseInt None = None.
Proof. repeat split. Qed.

Example ceil_div_runs :
  Js.ceil_div 7 2 = 4 /\ Js.ceil_div 10 5 = 2 /\ Js.ceil_div 0 10 = 0.
Proof. repeat split. Qed.

Example scenario_runs :
  fst (serve (CallbackRouter.itemsRouter decimal_engine no_options)
         scenario empty_world) = scenario_responses
  /\ fst (serve (PromiseRouter.itemsRouter decimal_engine no_options)
            scenario empty_world) = scenario_responses
  /\ store (snd (serve (CallbackRouter.itemsRouter decimal_engine no_options)
                   scenario empty_world)) = mkDb [] 1.
Proof. repeat split. Qed.

Example scenario_runs_through_busy :
  fst (serve (CallbackRouter.itemsRouter decimal_engine retry_options)
         scenario (mkWorld (mkDb [] 0) busy_writes []))
  = scenario_responses
  /\ fst (serve (PromiseRouter.itemsRouter decimal_engine retry_options)
            scenario (mkWorld (mkDb [] 0) busy_writes []))
     = scenario_responses.
Proof. repeat split. Qed.

(* ===================================================================== *)
(** * The driver call                                                    *)
(* ===================================================================== *)

Section Driver.

Variable db : Engine.

Lemma db_exec_trace (s : Stmt) (w : World) :
  trace (snd (db_exec db s w)) = trace w ++ [Issued s].
Proof.
  unfold db_exec; simpl.
  destruct (faults w) as [|[err|] fs]; simpl;
    try reflexivity; destruct (exec db s (store w)) as [err|[r d]]; reflexivity.
Qed.

(** A scripted failure is what the callback receives, and the store is
    untouched. *)
Lemma db_exec_fault (s : Stmt) (w : World) err fs :
  faults w = Some err :: fs ->
  db_exec db s w = (inl err, mkWorld (store w) fs (trace w ++ [Issued s])).
Proof. intros H. unfold db_exec; simpl. rewrite H. reflexivity. Qed.

(** Without a scripted failure the statement runs against the store. *)
Lemma db_exec_runs (s : Stmt) (w : World) :
  hd None (faults w) = None ->
  db_exec db s w =
  match exec db s (store w) with
  | inl err => (inl err, mkWorld (store w) (tl (faults w)) (trace w ++ [Issued s]))
  | inr (r, d) => (inr r, mkWorld d (tl (faults w)) (trace w ++ [Issued s]))
  end.
Proof.
  intros H. unfold db_exec; simpl.
  destruct (faults w) as [|[err|] fs]; simpl in *; try discriminate; reflexivity.
Qed.

(** Either way: an error leaves the store as it was, a result is the
    statement's result on the store. *)
Lemma db_exec_cases (s : Stmt) (w : World) :
  match db_exec db s w with
  | (inl _, w1) => store w1 = store w
  | (inr r, w1) => exec db s (store w) = inr (r, store w1)
  end.
Proof.
  unfold db_exec; simpl.
  destruct (faults w) as [|[err|] fs]; simpl; try reflexivity;
    destruct (exec db s (store w)) as [err|[r d]]; reflexivity.
Qed.

End Driver.

(* ===================================================================== *)
(** * The retry policy                                                   *)
(* ===================================================================== *)

Ltac rewrite_tests :=
  repeat match goal with
         | H : _ = true |- _ => rewrite H
         | H : _ = false |- _ => rewrite H
         end.

Section Retry.

Variable options : Options.

(** The contract of [retryOperation], as one equation. *)
Lemma retryOperation_unfold {A} (operation : PromiseRouter.Promise A)
  (retries : Z) (w : World) :
  PromiseRouter.retryOperation options operation retries w =
  match operation w with
  | (inr v, w1) => (inr v, w1)
  | (inl err, w1) =>
      if PromiseRouter.shouldRetry options && busy err && (retries >? 0)
      then PromiseRouter.retryOperation options operation (retries - 1)
             (wait (PromiseRouter.retryDelay options) w1)
      else (inl err, w1)
  end.
Proof.
  funelim (PromiseRouter.retryOperation options operation retries w);
    rewrite Heq; cbn; rewrite_tests; reflexivity.
Qed.

(** Induction on the retries left: a fact about every call follows from
    the fact for calls with fewer retries left. *)
Lemma retries_ind (P : Z -> Prop) :
  (forall r, (forall r', 0 < r -> r' = r - 1 -> P r') -> P r) ->
  forall r, P r.
Proof.
  intros step r.
  assert (H : forall n r, Z.to_nat r = n -> P r).
  { induction n as [|n IH]; intros r0 Hn; apply step; intros r' Hpos ->.
    - lia.
    - apply IH. lia. }
  exact (H _ r eq_refl).
Qed.

(** Retrying commutes with forgetting the value: [retryOperation] around
    [dbRun] does what it does around the driver call itself. *)
Lemma retryOperation_forget {A B} (f : A -> B)
  (operation : PromiseRouter.Promise A) (retries : Z) :
  forall w,
  PromiseRouter.retryOperation options
    (fun w0 => let (r, w1) := operation w0 in
               (match r with inl err => inl err | inr v => inr (f v) end, w1))
    retries w =
  let (r, w1) := PromiseRouter.retryOperation options operation retries w in
  (match r with inl err => inl err | inr v => inr (f v) end, w1).
Proof.
  induction retries as [retries IH] using retries_ind. intros w.
  rewrite (retryOperation_unfold operation), retryOperation_unfold.
  destruct (operation w) as [[err|v] w1]; [|reflexivity].
  destruct (PromiseRouter.shouldRetry options && busy err && (retries >? 0)) eqn:E;
    [|reflexivity].
  apply IH; [|reflexivity].
  apply andb_prop in E as [_ E]. apply Z.gtb_lt in E. lia.
Qed.

Lemma executions_app (t u : list Event) :
  executions (t ++ u) = executions t + executions u.
Proof. unfold executions. rewrite filter_app, length_app. lia. Qed.

Lemma executions_wait (ms : Z) (w : World) :
  executions (trace (wait ms w)) = executions (trace w).
Proof.
  unfold wait, log; simpl. rewrite executions_app.
  change (executions [Waited ms]) with 0. lia.
Qed.

(** An operation that adds one execution per call is executed at least
    once and at most once more than the retries it was given. *)
Lemma retryOperation_executions {A} (operation : PromiseRouter.Promise A) :
  (forall w, executions (trace (snd (operation w))) = executions (trace w) + 1) ->
  forall retries w,
    1 <= executions
           (trace (snd (PromiseRouter.retryOperation options operation retries w)))
         - executions (trace w)
      <= 1 + Z.max 0 retries.
Proof.
  intros Hop retries.
  induction retries as [retries IH] using retries_ind. intros w.
  rewrite retryOperation_unfold.
  specialize (Hop w).
  destruct (operation w) as [[err|v] w1]; cbn [snd] in *; [|lia].
  destruct (PromiseRouter.shouldRetry options && busy err && (retries >? 0)) eqn:E;
    cbn [snd]; [|lia].
  apply andb_prop in E as [_ E]. apply Z.gtb_lt in E.
  specialize (IH (retries - 1) E eq_refl (wait (PromiseRouter.retryDelay options) w1)).
  rewrite executions_wait in IH. lia.
Qed.

Lemma keeps_failing_le (k k' : nat) err w :
  keeps_failing k err w -> (k' <= k)%nat -> keeps_failing k' err w.
Proof.
  intros [rest H] Hle. exists (repeat (Some err) (k - k') ++ rest).
  rewrite app_assoc, <- repeat_app, H. do 2 f_equal. lia.
Qed.

Lemma after_failures_store k s ms w :
  store (after_failures k s ms w) = store w.
Proof. revert w; induction k as [|k IH]; intros w; simpl; [|rewrite IH]; reflexivity. Qed.

Lemma after_failures_faults k s ms err w rest :
  faults w = repeat (Some err) k ++ rest ->
  faults (after_failures k s ms w) = rest.
Proof.
  revert w; induction k as [|k IH]; intros w H; simpl in *; [exact H|].
  apply IH. simpl. rewrite H. reflexivity.
Qed.

Variable db : Engine.

(** With retry enabled, [k] busy failures in a row cost [k] retries. *)
Lemma retryOperation_through_failures (s : Stmt) err :
  PromiseRouter.shouldRetry options = true -> busy err = true ->
  forall k retries w,
    keeps_failing k err w -> Z.of_nat k <= retries ->
    PromiseRouter.retryOperation options (db_exec db s) retries w =
    PromiseRouter.retryOperation options (db_exec db s) (retries - Z.of_nat k)
      (after_failures k s (PromiseRouter.retryDelay options) w).
Proof.
  intros Hretry Hbusy.
  induction k as [|k IH]; intros retries w [rest Hf] Hle.
  - simpl. f_equal. lia.
  - rewrite retryOperation_unfold.
    rewrite (db_exec_fault db s w err (repeat (Some err) k ++ rest)) by exact Hf.
    rewrite Hretry, Hbusy. simpl andb.
    destruct (retries >? 0) eqn:E; [|rewrite Z.gtb_ltb in E; apply Z.ltb_ge in E; lia].
    rewrite IH.
    + simpl after_failures. rewrite Hf. simpl tl. f_equal. lia.
    + exists rest. reflexivity.
    + lia.
Qed.

(** Fewer busy failures than the budget: the caller gets the result of the
    statement on the store, and no error. *)
Lemma retryOperation_succeeds (s : Stmt) err k retries w r d :
  PromiseRouter.shouldRetry options = true -> busy err = true ->
  fails_times k err w -> Z.of_nat k <= retries ->
  exec db s (store w) = inr (r, d) ->
  exists w',
    PromiseRouter.retryOperation options (db_exec db s) retries w = (inr r, w')
    /\ store w' = d
    /\ faults w' = tl (skipn k (faults w)).
Proof.
  intros Hretry Hbusy [rest [Hf Hrest]] Hle Hexec.
  rewrite (retryOperation_through_failures s err Hretry Hbusy k) by
    (try (exists rest; exact Hf); lia).
  rewrite retryOperation_unfold.
  pose proof (after_failures_faults k s (PromiseRouter.retryDelay options) err w rest Hf) as Hfa.
  rewrite db_exec_runs by (rewrite Hfa; exact Hrest).
  rewrite after_failures_store, Hexec, Hfa.
  eexists; split; [reflexivity|]. split; [reflexivity|]. simpl.
  rewrite Hf, skipn_app, repeat_length, Nat.sub_diag, skipn_all2 by (rewrite repeat_length; lia).
  reflexivity.
Qed.

(** More busy failures than the budget: the caller gets the busy error. *)
Lemma retryOperation_exhausted (s : Stmt) err k retries w :
  busy err = true ->
  keeps_failing k err w -> Z.max 0 retries < Z.of_nat k ->
  exists w',
    PromiseRouter.retryOperation options (db_exec db s) retries w = (inl err, w')
    /\ store w' = store w.
Proof.
  intros Hbusy Hk Hlt.
  destruct (PromiseRouter.shouldRetry options) eqn:Hretry.
  - pose proof (keeps_failing_le k (Z.to_nat (Z.max 0 retries)) err w Hk ltac:(lia)) as Hm.
    destruct (Z.leb_spec 0 retries) as [Hpos|Hneg].
    + rewrite (retryOperation_through_failures s err Hretry Hbusy _ retries w Hm) by lia.
      rewrite retryOperation_unfold.
      destruct Hk as [rest Hf].
      set (m := Z.to_nat (Z.max 0 retries)) in *.
      assert (Hsplit : faults w = repeat (Some err) m ++ (Some err :: repeat (Some err) (k - m - 1) ++ rest)).
      { rewrite Hf. change (Some err :: repeat (Some err) (k - m - 1) ++ rest)
          with (repeat (Some err) (S (k - m - 1)) ++ rest).
        rewrite app_assoc, <- repeat_app. do 2 f_equal. lia. }
      erewrite db_exec_fault by (eapply after_failures_faults; exact Hsplit).
      replace (retries - Z.of_nat m >? 0) with false by (symmetry; rewrite Z.gtb_ltb; apply Z.ltb_ge; lia).
      rewrite andb_false_r. eexists; split; [reflexivity|]. simpl.
      apply after_failures_store.
    + destruct Hk as [rest Hf]. destruct k as [|k]; [lia|].
      rewrite retryOperation_unfold.
      erewrite db_exec_fault by exact Hf.
      replace (retries >? 0) with false by (symmetry; rewrite Z.gtb_ltb; apply Z.ltb_ge; lia).
      rewrite andb_false_r. eexists; split; reflexivity.
  - destruct Hk as [rest Hf]. destruct k as [|k]; [lia|].
    rewrite retryOperation_unfold.
    erewrite db_exec_fault by exact Hf.
    rewrite Hretry. simpl. eexists; split; reflexivity.
Qed.

End Retry.

(* ===================================================================== *)
(** * The callback router's loops are the retry policy                   *)
(* ===================================================================== *)

Section CallbackLoops.

Variable db : Engine.
Variable options : Options.

(** What [promisify(db.run)] resolves with under the retry policy. *)
Lemma retryOperation_dbRun (s : Stmt) (retries : Z) (w : World) :
  PromiseRouter.retryOperation options (PromiseRouter.dbRun db s) retries w =
  let (r, w1) := PromiseRouter.retryOperation options (db_exec db s) retries w in
  (match r with inl err => inl err | inr _ => inr tt end, w1).
Proof. exact (retryOperation_forget options (fun _ => tt) (db_exec db s) retries w). Qed.

Ltac unfold_loop :=
  repeat match goal with
         | H : db_exec _ _ _ = _ |- _ => rewrite H; clear H
         end;
  cbn; rewrite_tests; reflexivity.

Lemma performInsert_unfold name description retries w :
  CallbackRouter.performInsert db options name description retries w =
  match db_exec db (Insert (bind name) (bind description)) w with
  | (inl err, w1) =>
      if CallbackRouter.shouldRetry options && busy err && (retries >? 0)
      then CallbackRouter.performInsert db options name description
             (retries - 1) (wait (CallbackRouter.retryDelay options) w1)
      else (status_json 500 (JError (message err)), w1)
  | (inr this, w1) => after_insert db (inr this) w1
  end.
Proof.
  funelim (CallbackRouter.performInsert db options name description retries w);
    unfold after_insert; unfold_loop.
Qed.

Lemma performUpdate_unfold req name description retries w :
  CallbackRouter.performUpdate db options req name description retries w =
  match db_exec db (Update (bind name) (bind description)
                           (PText (params_id req))) w with
  | (inl err, w1) =>
      if CallbackRouter.shouldRetry options && busy err && (retries >? 0)
      then CallbackRouter.performUpdate db options req name description
             (retries - 1) (wait (CallbackRouter.retryDelay options) w1)
      else (status_json 500 (JError (message err)), w1)
  | (inr this, w1) => after_update db req (inr this) w1
  end.
Proof.
  funelim (CallbackRouter.performUpdate db options req name description retries w);
    unfold after_update; unfold_loop.
Qed.

Lemma performDelete_unfold req retries w :
  CallbackRouter.performDelete db options req retries w =
  match db_exec db (Delete (PText (params_id req))) w with
  | (inl err, w1) =>
      if CallbackRouter.shouldRetry options && busy err && (retries >? 0)
      then CallbackRouter.performDelete db options req
             (retries - 1) (wait (CallbackRouter.retryDelay options) w1)
      else (status_json 500 (JError (message err)), w1)
  | (inr this, w1) => after_delete (inr this) w1
  end.
Proof.
  funelim (CallbackRouter.performDelete db options req retries w);
    unfold after_delete; unfold_loop.
Qed.

Ltac loop_is_retry IH :=
  match goal with
  | |- context [db_exec ?d ?s ?w] =>
      destruct (db_exec d s w) as [[err|this] w1]; [|reflexivity];
      change (CallbackRouter.shouldRetry options)
        with (PromiseRouter.shouldRetry options);
      change (CallbackRouter.retryDelay options)
        with (PromiseRouter.retryDelay options);
      match goal with
      | |- context [?a && ?b && (?r >? 0)] =>
          let E := fresh "E" in
          destruct (a && b && (r >? 0)) eqn:E; [|reflexivity];
          apply IH; [|reflexivity];
          apply andb_prop in E as [_ E]; apply Z.gtb_lt in E; lia
      end
  end.

(** [performInsert] is [retryOperation] around the INSERT, followed by
    what the callback does with the outcome. *)
Lemma performInsert_retry name description retries :
  forall w,
  CallbackRouter.performInsert db options name description retries w =
  let (r, w1) :=
    PromiseRouter.retryOperation options
      (db_exec db (Insert (bind name) (bind description))) retries w in
  after_insert db r w1.
Proof.
  induction retries as [retries IH] using retries_ind. intros w.
  rewrite performInsert_unfold, retryOperation_unfold.
  loop_is_retry IH.
Qed.

Lemma performUpdate_retry req name description retries :
  forall w,
  CallbackRouter.performUpdate db options req name description retries w =
  let (r, w1) :=
    PromiseRouter.retryOperation options
      (db_exec db (Update (bind name) (bind description)
                          (PText (params_id req)))) retries w in
  after_update db req r w1.
Proof.
  induction retries as [retries IH] using retries_ind. intros w.
  rewrite performUpdate_unfold, retryOperation_unfold.
  loop_is_retry IH.
Qed.

Lemma performDelete_retry req retries :
  forall w,
  CallbackRouter.performDelete db options req retries w =
  let (r, w1) :=
    PromiseRouter.retryOperation options
      (db_exec db (Delete (PText (params_id req)))) retries w in
  after_delete r w1.
Proof.
  induction retries as [retries IH] using retries_ind. intros w.
  rewrite performDelete_unfold, retryOperation_unfold.
  loop_is_retry IH.
Qed.

End CallbackLoops.

(* ===================================================================== *)
(** * Facts about the table                                              *)
(* ===================================================================== *)

Section Table.

Variable db : Engine.

Lemma db_exec_executions (s : Stmt) (w : World) :
  executions (trace (snd (db_exec db s w))) =
  executions (trace w) + (if is_write s then 1 else 0).
Proof.
  rewrite db_exec_trace, executions_app. f_equal.
  unfold executions; simpl. destruct (is_write s); reflexivity.
Qed.

Lemma max_rowid_ge (rs : list Item) (i : Item) :
  In i rs -> item_id i <= max_rowid rs.
Proof.
  induction rs as [|r rs IH]; simpl; [tauto|].
  intros [->|H]; [lia|]. specialize (IH H). lia.
Qed.

Lemma next_id_fresh (d : Db) (i : Item) :
  In i (rows d) -> item_id i < next_id d.
Proof. intros H. apply max_rowid_ge in H. unfold next_id. lia. Qed.

Lemma find_none_app {A} (f : A -> bool) (l : list A) (x : A) :
  (forall y, In y l -> f y = false) ->
  find f (l ++ [x]) = if f x then Some x else None.
Proof.
  induction l as [|a l IH]; intros H; simpl; [reflexivity|].
  rewrite (H a) by (left; reflexivity). apply IH.
  intros y Hy. apply H. right. exact Hy.
Qed.

(** The row an INSERT has just added is the one its [lastID] selects. *)
Lemma find_inserted (d : Db) (nm : string) (ds : SqlText) :
  find (id_is db (PInt (next_id d)))
       (rows d ++ [mkItem (next_id d) nm ds])
  = Some (mkItem (next_id d) nm ds).
Proof.
  rewrite find_none_app; simpl.
  - rewrite Z.eqb_refl. reflexivity.
  - intros y Hy. apply next_id_fresh in Hy. apply Z.eqb_neq. lia.
Qed.

End Table.

(* ===================================================================== *)
(** * C4: the busy-retry policy                                          *)
(* ===================================================================== *)

Section RetryPolicy.

Variable db : Engine.
Variable options : Options.

Lemma after_insert_executions r w1 :
  executions (trace (snd (after_insert db r w1))) = executions (trace w1).
Proof.
  unfold after_insert. destruct r as [err|this]; [reflexivity|].
  pose proof (db_exec_executions db (SelectById (PInt (lastID this))) w1) as H.
  destruct (db_exec db (SelectById (PInt (lastID this))) w1) as [[err|row] w2];
    simpl in *; lia.
Qed.

Lemma fails_times_exact k err w :
  faults w = repeat (Some err) k -> fails_times k err w.
Proof. intros H. exists []. rewrite app_nil_r. split; [exact H|reflexivity]. Qed.

Lemma maxRetries_positive : 0 < PromiseRouter.maxRetries options.
Proof.
  unfold PromiseRouter.maxRetries.
  destruct (opt_maxRetries options) as [[|p]|]; simpl; lia.
Qed.

(** C4, as the code has it.  A write under the retry policy is executed
    once; it is executed again, after a wait of [retryDelay] and with one
    retry fewer left, exactly when it failed with SQLITE_BUSY, retry is
    enabled and retries are left; any other outcome is the caller's,
    unchanged.  The write is therefore executed at least once and at most
    [1 + maxRetries] times; with retry enabled and fewer busy failures than
    [maxRetries] the caller sees the statement's result and no error; with
    more busy failures than [maxRetries] the caller sees the busy error
    (HTTP 500 with its message, in the callback router), and the store is
    as it was.  This holds of [retryOperation] around [dbRun] in the
    promise router and of the [performInsert] loop in the callback router;
    each loop of the callback router is [retryOperation] around its
    statement followed by the rest of its callback. *)
Theorem retry_policy :
  (forall (A : Type) (operation : PromiseRouter.Promise A) retries w,
      PromiseRouter.retryOperation options operation retries w =
      match operation w with
      | (inr v, w1) => (inr v, w1)
      | (inl err, w1) =>
          if PromiseRouter.shouldRetry options && busy err && (retries >? 0)
          then PromiseRouter.retryOperation options operation (retries - 1)
                 (wait (PromiseRouter.retryDelay options) w1)
          else (inl err, w1)
      end)
  /\ (forall s w out,
        is_write s = true ->
        out = PromiseRouter.retryOperation options (PromiseRouter.dbRun db s)
                (PromiseRouter.maxRetries options) w ->
        1 <= executions (trace (snd out)) - executions (trace w)
          <= 1 + PromiseRouter.maxRetries options
        /\ (forall k err r d,
              PromiseRouter.shouldRetry options = true -> busy err = true ->
              fails_times k err w ->
              Z.of_nat k < PromiseRouter.maxRetries options ->
              exec db s (store w) = inr (r, d) ->
              fst out = inr tt /\ store (snd out) = d)
        /\ (forall k err,
              busy err = true -> keeps_failing k err w ->
              PromiseRouter.maxRetries options < Z.of_nat k ->
              fst out = inl err /\ store (snd out) = store w))
  /\ (forall name description retries w,
        CallbackRouter.performInsert db options name description retries w =
        let (r, w1) :=
          PromiseRouter.retryOperation options
            (db_exec db (Insert (bind name) (bind description))) retries w in
        after_insert db r w1)
  /\ (forall req name description retries w,
        CallbackRouter.performUpdate db options req name description retries w =
        let (r, w1) :=
          PromiseRouter.retryOperation options
            (db_exec db (Update (bind name) (bind description)
                                (PText (params_id req)))) retries w in
        after_update db req r w1)
  /\ (forall req retries w,
        CallbackRouter.performDelete db options req retries w =
        let (r, w1) :=
          PromiseRouter.retryOperation options
            (db_exec db (Delete (PText (params_id req)))) retries w in
        after_delete r w1)
  /\ (forall name description w out,
        out = CallbackRouter.performInsert db options name description
                (CallbackRouter.maxRetries options) w ->
        1 <= executions (trace (snd out)) - executions (trace w)
          <= 1 + CallbackRouter.maxRetries options
        /\ (forall k err nm,
              CallbackRouter.shouldRetry options = true -> busy err = true ->
              faults w = repeat (Some err) k ->
              Z.of_nat k < CallbackRouter.maxRetries options ->
              name = Js.Str nm ->
              fst out =
              json (JRow (Some (mkItem (next_id (store w)) nm (bind description)))))
        /\ (forall k err,
              busy err = true -> keeps_failing k err w ->
              CallbackRouter.maxRetries options < Z.of_nat k ->
              fst out = status_json 500 (JError (message err))
              /\ store (snd out) = store w)).
Proof.
  pose proof maxRetries_positive as Hbudget.
  split; [|split; [|split; [|split; [|split]]]].
  - intros A operation retries w. apply retryOperation_unfold.
  - intros s w out Hs ->. rewrite retryOperation_dbRun.
    pose proof (retryOperation_executions options (db_exec db s)) as Hn.
    specialize (Hn ltac:(intros w0; rewrite db_exec_executions, Hs; reflexivity)
                   (PromiseRouter.maxRetries options) w).
    split; [|split].
    + destruct (PromiseRouter.retryOperation options (db_exec db s) _ w) as [r w'].
      cbn [snd] in *. lia.
    + intros k err r d Hretry Hbusy Hk Hlt Hexec.
      destruct (retryOperation_succeeds options db s err k
                  (PromiseRouter.maxRetries options) w r d Hretry Hbusy Hk
                  ltac:(lia) Hexec) as [w' [-> [Hst _]]].
      split; [reflexivity|exact Hst].
    + intros k err Hbusy Hk Hlt.
      destruct (retryOperation_exhausted options db s err k
                  (PromiseRouter.maxRetries options) w Hbusy Hk ltac:(lia))
        as [w' [-> Hst]].
      split; [reflexivity|exact Hst].
  - intros name description retries w. apply performInsert_retry.
  - intros req name description retries w. apply performUpdate_retry.
  - intros req retries w. apply performDelete_retry.
  - intros name description w out ->. rewrite performInsert_retry.
    change (CallbackRouter.maxRetries options)
      with (PromiseRouter.maxRetries options).
    change (CallbackRouter.shouldRetry options)
      with (PromiseRouter.shouldRetry options).
    set (s := Insert (bind name) (bind description)).
    pose proof (retryOperation_executions options (db_exec db s)) as Hn.
    specialize (Hn ltac:(intros w0; rewrite db_exec_executions; reflexivity)
                   (PromiseRouter.maxRetries options) w).
    split; [|split].
    + destruct (PromiseRouter.retryOperation options (db_exec db s) _ w) as [r w'].
      rewrite after_insert_executions. cbn [snd] in *. lia.
    + intros k err nm Hretry Hbusy Hf Hlt ->.
      destruct (retryOperation_succeeds options db s err k
                  (PromiseRouter.maxRetries options) w
                  (mkRun (next_id (store w)) 1)
                  (mkDb (rows (store w)
                           ++ [mkItem (next_id (store w)) nm (bind description)])
                        (next_id (store w)))
                  Hretry Hbusy (fails_times_exact k err w Hf) ltac:(lia) eq_refl)
        as [w' [-> [Hst Hfa]]].
      unfold after_insert. cbn [lastID].
      rewrite db_exec_runs
        by (rewrite Hfa, Hf, skipn_all2 by (rewrite repeat_length; lia); reflexivity).
      cbn [exec]. rewrite Hst. cbn [rows]. rewrite find_inserted. reflexivity.
    + intros k err Hbusy Hk Hlt.
      destruct (retryOperation_exhausted options db s err k
                  (PromiseRouter.maxRetries options) w Hbusy Hk ltac:(lia))
        as [w' [-> Hst]].
      split; [reflexivity|exact Hst].
Qed.

End RetryPolicy.

Lemma retry_policy_witness :
  fst (CallbackRouter.performInsert decimal_engine retry_options
         (Js.Str "a") Js.Undefined
         (CallbackRouter.maxRetries retry_options)
         (mkWorld (mkDb [] 0) [Some busy_error; Some busy_error] []))
  = json (JRow (Some (mkItem 1 "a" None))).
Proof.
  destruct (retry_policy decimal_engine retry_options)
    as [_ [_ [_ [_ [_ Hloop]]]]].
  destruct (Hloop (Js.Str "a") Js.Undefined
              (mkWorld (mkDb [] 0) [Some busy_error; Some busy_error] [])
              _ eq_refl) as [_ [Hok _]].
  exact (Hok 2%nat busy_error "a"%string eq_refl eq_refl eq_refl eq_refl eq_refl).
Defined.

(** C4 as stated fails with retry disabled, which is the default: one busy
    failure, fewer than [maxRetries = 3], and the caller of
    [retryOperation] gets the busy error; the Create of the callback router
    is answered 500. *)
Lemma retry_policy_counterexample :
  fails_times 1 busy_error (mkWorld (mkDb [] 0) [Some busy_error] [])
  /\ 1 < PromiseRouter.maxRetries no_options
  /\ fst (PromiseRouter.retryOperation no_options
            (PromiseRouter.dbRun decimal_engine (Insert (Some "a") None))
            (PromiseRouter.maxRetries no_options)
            (mkWorld (mkDb [] 0) [Some busy_error] []))
     = inl busy_error
  /\ fst (CallbackRouter.router_post decimal_engine no_options
            (body_request "" (Js.Str "a") Js.Undefined)
            (mkWorld (mkDb [] 0) [Some busy_error] []))
     = status_json 500 (JError "SQLITE_BUSY: database is locked").
Proof.
  split; [exists []; split; reflexivity|]. repeat split.
Qed.

(* ===================================================================== *)
(** * C7: validation at the handler boundary                             *)
(* ===================================================================== *)

(** C7.  A Create or an Update whose body has no name, a [null] name or an
    empty name is answered 400 [{ error: "Name is required" }] whatever the
    other fields are, in both routers; the world is returned as it was
    received: nothing is added to the trace (no statement is issued) and the
    store is unchanged. *)
Theorem name_required (db : Engine) (options : Options)
  (req : Request) (w : World) :
  body_name req = Js.Undefined \/ body_name req = Js.Null
    \/ body_name req = Js.Str "" ->
  PromiseRouter.createNewItem db options req w
    = (status_json 400 (JError "Name is required"), w)
  /\ PromiseRouter.updateItem db options req w
    = (status_json 400 (JError "Name is required"), w)
  /\ CallbackRouter.router_post db options req w
    = (status_json 400 (JError "Name is required"), w)
  /\ CallbackRouter.router_put db options req w
    = (status_json 400 (JError "Name is required"), w).
Proof.
  intros H.
  unfold PromiseRouter.createNewItem, PromiseRouter.updateItem,
    CallbackRouter.router_post, CallbackRouter.router_put.
  destruct H as [-> | [-> | ->]]; repeat split.
Qed.

Lemma name_required_witness :
  PromiseRouter.createNewItem decimal_engine no_options
    (body_request "7" (Js.Str "") (Js.Str "kept"))
    (world_of [mkItem 7 "seven" None] 7)
  = (status_json 400 (JError "Name is required"),
     world_of [mkItem 7 "seven" None] 7).
Proof.
  exact (proj1 (name_required decimal_engine no_options
                  (body_request "7" (Js.Str "") (Js.Str "kept"))
                  (world_of [mkItem 7 "seven" None] 7)
                  (or_intror (or_intror eq_refl)))).
Defined.

(* ===================================================================== *)
(** * C5, C6: the List request                                           *)
(* ===================================================================== *)

Section List.

Variable db : Engine.

(** The two routers read a page in the same way. *)
Lemma list_handlers_agree (req : Request) (w : World) :
  PromiseRouter.getAllItems db req w
  = CallbackRouter.router_get db req w.
Proof.
  unfold PromiseRouter.getAllItems, CallbackRouter.router_get,
    PromiseRouter.try_catch, PromiseRouter.and_then, PromiseRouter.dbAll,
    PromiseRouter.dbGet, PromiseRouter.resolve.
  destruct (db_exec db (SelectPage _ _) w) as [[err|rs] w1]; [reflexivity|].
  destruct (db_exec db SelectCount w1) as [[err|c] w2]; reflexivity.
Qed.

(** What a List request does: the first statement issued is the page
    query with the computed offset, and a response other than 500 is the
    page and its metadata. *)
Lemma router_get_cases (req : Request) (w : World) :
  let page := page_of req in
  let limit := limit_of req in
  let out := CallbackRouter.router_get db req w in
  (exists t, trace (snd out)
             = trace w ++ Issued (SelectPage limit ((page - 1) * limit)) :: t)
  /\ store (snd out) = store w
  /\ (status (fst out) = 500
      \/ fst out =
         json (JPage (limit_offset limit ((page - 1) * limit) (rows (store w)))
                 (mkPagination (Z.of_nat (List.length (rows (store w))))
                    (Js.ceil_div (Z.of_nat (List.length (rows (store w)))) limit)
                    page limit))).
Proof.
  intros page limit out. subst out. unfold CallbackRouter.router_get.
  fold (page_of req) (limit_of req). fold page limit.
  pose proof (db_exec_trace db (SelectPage limit ((page - 1) * limit)) w) as Ht.
  pose proof (db_exec_cases db (SelectPage limit ((page - 1) * limit)) w) as Hc.
  destruct (db_exec db (SelectPage limit ((page - 1) * limit)) w)
    as [[err|rs] w1]; cbn [fst snd] in *.
  - split; [exists []; exact Ht|]. split; [exact Hc|]. left; reflexivity.
  - cbn [exec] in Hc. injection Hc as Hrs Hst.
    pose proof (db_exec_trace db SelectCount w1) as Ht2.
    pose proof (db_exec_cases db SelectCount w1) as Hc2.
    destruct (db_exec db SelectCount w1) as [[err|c] w2]; cbn [fst snd] in *.
    + split; [exists [Issued SelectCount]; rewrite Ht2, Ht, <- app_assoc; reflexivity|].
      split; [congruence|]. left; reflexivity.
    + cbn [exec] in Hc2. injection Hc2 as Hcount Hst2.
      split; [exists [Issued SelectCount]; rewrite Ht2, Ht, <- app_assoc; reflexivity|].
      split; [congruence|]. right.
      rewrite <- Hrs, <- Hcount, <- Hst. reflexivity.
Qed.


Lemma positions_from_above k lo hi rs :
  hi < k -> positions_from k lo hi rs = [].
Proof.
  revert k; induction rs as [|r rs IH]; intros k H; simpl; [reflexivity|].
  replace (k <=? hi) with false by (symmetry; apply Z.leb_gt; lia).
  rewrite andb_false_r. apply IH. lia.
Qed.

Lemma positions_from_firstn k lo hi rs :
  lo <= k -> positions_from k lo hi rs = firstn (Z.to_nat (hi - k + 1)) rs.
Proof.
  revert k; induction rs as [|r rs IH]; intros k H; simpl.
  - rewrite firstn_nil. reflexivity.
  - replace (lo <=? k) with true by (symmetry; apply Z.leb_le; lia).
    destruct (Z.leb_spec k hi) as [Hle|Hgt]; simpl.
    + replace (Z.to_nat (hi - k + 1)) with (S (Z.to_nat (hi - (k + 1) + 1))) by lia.
      rewrite IH by lia. reflexivity.
    + rewrite positions_from_above by lia.
      replace (Z.to_nat (hi - k + 1)) with O by lia. reflexivity.
Qed.

Lemma positions_from_skipn k lo hi rs :
  k <= lo ->
  positions_from k lo hi rs
  = firstn (Z.to_nat (hi - lo + 1)) (skipn (Z.to_nat (lo - k)) rs).
Proof.
  revert k; induction rs as [|r rs IH]; intros k H.
  - rewrite skipn_nil, firstn_nil. reflexivity.
  - destruct (Z.eq_dec k lo) as [->|Hne].
    + rewrite positions_from_firstn by lia.
      replace (Z.to_nat (lo - lo)) with O by lia. reflexivity.
    + simpl positions_from.
      replace (lo <=? k) with false by (symmetry; apply Z.leb_gt; lia).
      simpl. rewrite IH by lia.
      replace (Z.to_nat (lo - k)) with (S (Z.to_nat (lo - (k + 1)))) by lia.
      reflexivity.
Qed.

(** A page of [limit] rows after [(page - 1) * limit] rows is the rows at
    positions [(page - 1) * limit + 1] to [page * limit]. *)
Lemma limit_offset_positions (page limit : Z) (rs : list Item) :
  1 <= page -> 1 <= limit ->
  limit_offset limit ((page - 1) * limit) rs
  = positions ((page - 1) * limit + 1) (page * limit) rs.
Proof.
  intros Hp Hl. unfold limit_offset, positions.
  replace (limit <? 0) with false by (symmetry; apply Z.ltb_ge; lia).
  rewrite positions_from_skipn by nia.
  f_equal; [|f_equal]; f_equal; lia.
Qed.

Lemma Forall_firstn {A} (P : A -> Prop) (n : nat) (l : list A) :
  Forall P l -> Forall P (firstn n l).
Proof.
  revert n; induction l as [|a l IH]; intros [|n] H; simpl; try constructor;
    inversion H; subst; auto.
Qed.

Lemma ascending_firstn (n : nat) (rs : list Item) :
  ascending rs -> ascending (firstn n rs).
Proof.
  unfold ascending. revert n; induction rs as [|r rs IH]; intros [|n] H; simpl;
    try constructor.
  - apply IH. inversion H; assumption.
  - apply Forall_firstn. inversion H; assumption.
Qed.

Lemma ascending_skipn (n : nat) (rs : list Item) :
  ascending rs -> ascending (skipn n rs).
Proof.
  unfold ascending. revert rs; induction n as [|n IH]; intros [|r rs] H; simpl;
    try assumption.
  apply IH. inversion H; assumption.
Qed.

(** Whatever the limit and the offset, a page is in ascending id order if
    the table is. *)
Lemma ascending_limit_offset (l o : Z) (rs : list Item) :
  ascending rs -> ascending (limit_offset l o rs).
Proof.
  intros H. unfold limit_offset. destruct (l <? 0).
  - apply ascending_skipn, H.
  - apply ascending_firstn, ascending_skipn, H.
Qed.

End List.



(** C5, as the code has it.  A successful List request returns, in both
    routers, a page that is in ascending id order whenever the table is;
    and when page >= 1 and limit >= 1 (after defaulting) the page is the
    rows at insertion-order positions [(page - 1) * limit + 1] to
    [page * limit] of the table. *)
Theorem page_in_insertion_order (db : Engine) (req : Request) (w : World)
  (handler : Request -> World -> Response * World) (out : Response * World) :
  handler = PromiseRouter.getAllItems db
    \/ handler = CallbackRouter.router_get db ->
  out = handler req w ->
  status (fst out) = 200 ->
  exists items pg,
    body (fst out) = JPage items pg
    /\ (ascending (rows (store w)) -> ascending items)
    /\ (1 <= page_of req -> 1 <= limit_of req ->
        items = positions ((page_of req - 1) * limit_of req + 1)
                          (page_of req * limit_of req) (rows (store w))).
Proof.
  intros Hh -> H200.
  assert (E : handler req w = CallbackRouter.router_get db req w)
    by (destruct Hh as [-> | ->]; [apply list_handlers_agree|reflexivity]).
  rewrite E in *. clear E Hh handler.
  destruct (router_get_cases db req w) as [_ [_ [H500 | Hr]]];
    [rewrite H500 in H200; discriminate|].
  rewrite Hr. cbn [body json fst].
  eexists _, _. split; [reflexivity|]. split.
  - apply ascending_limit_offset.
  - apply limit_offset_positions.
Qed.

Lemma page_in_insertion_order_witness :
  exists items pg,
    body (fst (CallbackRouter.router_get decimal_engine
                 (list_request (Some "2") (Some "2")) three_items))
    = JPage items pg
    /\ items = [mkItem 3 "c" None].
Proof.
  destruct (page_in_insertion_order decimal_engine
              (list_request (Some "2") (Some "2")) three_items _ _
              (or_intror eq_refl) eq_refl eq_refl)
    as [items [pg [Hb [_ Hpos]]]].
  exists items, pg. split; [exact Hb|].
  exact (Hpos ltac:(vm_compute; discriminate) ltac:(vm_compute; discriminate)).
Defined.

(** C5 as stated fails on a request the service accepts: with [page=-1]
    and [limit=2] the offset is negative, the engine takes it as 0, and the
    response is 200 with the first two rows, while no row is at positions
    -3 to -2. *)
Lemma page_in_insertion_order_counterexample :
  status (fst (CallbackRouter.router_get decimal_engine
                 (list_request (Some "-1") (Some "2")) three_items)) = 200
  /\ ~ (forall items pg,
          body (fst (CallbackRouter.router_get decimal_engine
                       (list_request (Some "-1") (Some "2")) three_items))
          = JPage items pg ->
          items = positions
                    ((page_of (list_request (Some "-1") (Some "2")) - 1)
                       * limit_of (list_request (Some "-1") (Some "2")) + 1)
                    (page_of (list_request (Some "-1") (Some "2"))
                       * limit_of (list_request (Some "-1") (Some "2")))
                    (rows (store three_items))).
Proof.
  split; [reflexivity|]. intros H.
  specialize (H _ _ eq_refl). discriminate H.
Qed.

(* ===================================================================== *)
(** * What every request preserves                                       *)
(* ===================================================================== *)

Section Invariant.

Variable db : Engine.
Variable options : Options.
Variable P : World -> Prop.
Hypothesis P_exec : forall s w, P w -> P (snd (db_exec db s w)).
Hypothesis P_wait : forall ms w, P w -> P (wait ms w).

Lemma retryOperation_inv {A} (operation : PromiseRouter.Promise A) :
  (forall w, P w -> P (snd (operation w))) ->
  forall retries w,
    P w -> P (snd (PromiseRouter.retryOperation options operation retries w)).
Proof.
  intros Hop retries.
  induction retries as [retries IH] using retries_ind. intros w H.
  rewrite retryOperation_unfold. specialize (Hop w H).
  destruct (operation w) as [[err|v] w1]; cbn [snd] in *; [|exact Hop].
  destruct (PromiseRouter.shouldRetry options && busy err && (retries >? 0)) eqn:E;
    [|exact Hop].
  apply andb_prop in E as [_ E]. apply Z.gtb_lt in E.
  apply (IH (retries - 1) E eq_refl). apply P_wait. exact Hop.
Qed.

Lemma retry_write_inv (s : Stmt) (retries : Z) (w : World) :
  P w ->
  P (snd (PromiseRouter.retryOperation options (db_exec db s) retries w)).
Proof. apply retryOperation_inv. intros w0. apply P_exec. Qed.

Ltac step_inv :=
  match goal with
  | H : P ?w |- context [db_exec db ?s ?w] =>
      let H' := fresh "H" in
      pose proof (P_exec s w H) as H';
      destruct (db_exec db s w) as [[?err|?r] ?w]; cbn [snd] in H'
  | H : P ?w
    |- context [PromiseRouter.retryOperation options (db_exec db ?s) ?n ?w] =>
      let H' := fresh "H" in
      pose proof (retry_write_inv s n w H) as H';
      destruct (PromiseRouter.retryOperation options (db_exec db s) n w)
        as [[?err|?r] ?w]; cbn [snd] in H'
  end.

(** Every request to the callback router preserves what every driver call
    and every wait preserve. *)
Lemma callback_router_inv (route : Route) (req : Request) (w : World) :
  P w -> P (snd (CallbackRouter.itemsRouter db options route req w)).
Proof.
  intros H. destruct route; cbn [CallbackRouter.itemsRouter];
    unfold CallbackRouter.router_get, CallbackRouter.router_get_id,
      CallbackRouter.router_post, CallbackRouter.router_put,
      CallbackRouter.router_delete;
    try (destruct (negb (Js.truthy (body_name req))); [exact H|]);
    rewrite ?performInsert_retry, ?performUpdate_retry, ?performDelete_retry;
    unfold after_insert, after_update, after_delete;
    repeat (step_inv; cbn [snd]; try assumption);
    repeat match goal with
           | |- context [if ?b then _ else _] => destruct b
           | |- context [match ?o with Some _ => _ | None => _ end] => destruct o
           end;
    repeat (step_inv; cbn [snd]; try assumption); assumption.
Qed.

(** The same for the promise router. *)
Lemma promise_router_inv (route : Route) (req : Request) (w : World) :
  P w -> P (snd (PromiseRouter.itemsRouter db options route req w)).
Proof.
  intros H. destruct route; cbn [PromiseRouter.itemsRouter];
    unfold PromiseRouter.getAllItems, PromiseRouter.getItemById,
      PromiseRouter.createNewItem, PromiseRouter.updateItem,
      PromiseRouter.deleteItem;
    try (destruct (negb (Js.truthy (body_name req))); [exact H|]);
    unfold PromiseRouter.try_catch, PromiseRouter.and_then,
      PromiseRouter.dbAll, PromiseRouter.dbGet, PromiseRouter.resolve;
    rewrite ?retryOperation_dbRun;
    repeat (step_inv; cbn [snd]; try assumption);
    repeat match goal with
           | |- context [match ?o with Some _ => _ | None => _ end] => destruct o
           end;
    cbn [snd]; assumption.
Qed.

End Invariant.

Section Order.

Variable db : Engine.

Lemma ascending_snoc (rs : list Item) (x : Item) :
  ascending rs -> (forall i, In i rs -> item_id i < item_id x) ->
  ascending (rs ++ [x]).
Proof.
  unfold ascending. induction rs as [|r rs IH]; intros H Hx; simpl.
  - constructor; constructor.
  - inversion H as [|? ? Hs Hf]; subst. constructor.
    + apply IH; [exact Hs|]. intros i Hi. apply Hx. right. exact Hi.
    + apply Forall_app. split; [exact Hf|].
      constructor; [|constructor]. apply Hx. left. reflexivity.
Qed.

Lemma ascending_map (g : Item -> Item) (rs : list Item) :
  (forall i, item_id (g i) = item_id i) ->
  ascending rs -> ascending (map g rs).
Proof.
  unfold ascending. intros Hg. induction rs as [|r rs IH]; intros H; simpl.
  - constructor.
  - inversion H as [|? ? Hs Hf]; subst. constructor; [apply IH, Hs|].
    apply Forall_map. rewrite Hg.
    eapply Forall_impl; [|exact Hf]. intros a Ha. rewrite Hg. exact Ha.
Qed.

Lemma ascending_filter (f : Item -> bool) (rs : list Item) :
  ascending rs -> ascending (filter f rs).
Proof.
  unfold ascending. induction rs as [|r rs IH]; intros H; simpl.
  - constructor.
  - inversion H as [|? ? Hs Hf]; subst.
    destruct (f r); [constructor|]; try apply IH; try exact Hs.
    apply Forall_forall. intros a Ha. apply filter_In in Ha as [Ha _].
    rewrite Forall_forall in Hf. apply Hf, Ha.
Qed.

(** Every statement keeps the table in ascending id order. *)
Lemma exec_ascending (s : Stmt) (d : Db) r (d' : Db) :
  ascending (rows d) -> exec db s d = inr (r, d') -> ascending (rows d').
Proof.
  intros H. destruct s as [l o| |p|n ds|[nm|] ds|[nm|] ds p|p]; cbn [exec];
    intros E; try (injection E as _ <-; exact H); try discriminate.
  - injection E as _ <-. cbn [rows].
    apply ascending_snoc; [exact H|]. intros i Hi. cbn [item_id].
    apply next_id_fresh, Hi.
  - injection E as _ <-. cbn [rows]. apply ascending_map; [|exact H].
    intros i. destruct (id_is db p i); reflexivity.
  - destruct (existsb (id_is db p) (rows d)); [discriminate|].
    injection E as _ <-. exact H.
  - injection E as _ <-. cbn [rows]. apply ascending_filter, H.
Qed.

Lemma db_exec_ascending (s : Stmt) (w : World) :
  ascending (rows (store w)) ->
  ascending (rows (store (snd (db_exec db s w)))).
Proof.
  intros H. pose proof (db_exec_cases db s w) as Hc.
  destruct (db_exec db s w) as [[err|r] w1]; cbn [snd].
  - rewrite Hc. exact H.
  - eapply exec_ascending; eassumption.
Qed.

(** Requests keep the table in ascending id order, in both routers. *)
Lemma routers_keep_order (options : Options) (route : Route) (req : Request)
  (w : World) :
  ascending (rows (store w)) ->
  ascending (rows (store (snd (PromiseRouter.itemsRouter db options route req w))))
  /\ ascending (rows (store (snd (CallbackRouter.itemsRouter db options route req w)))).
Proof.
  intros H. split.
  - apply (promise_router_inv db options (fun w => ascending (rows (store w))));
      [apply db_exec_ascending|intros ms w0 H0; exact H0|exact H].
  - apply (callback_router_inv db options (fun w => ascending (rows (store w))));
      [apply db_exec_ascending|intros ms w0 H0; exact H0|exact H].
Qed.

(** No request adds to the storage failures to come: a world without any
    stays without any. *)
Lemma routers_keep_fault_free (options : Options) (route : Route)
  (req : Request) (w : World) :
  fault_free w ->
  fault_free (snd (PromiseRouter.itemsRouter db options route req w))
  /\ fault_free (snd (CallbackRouter.itemsRouter db options route req w)).
Proof.
  assert (Hexec : forall s w0, fault_free w0 -> fault_free (snd (db_exec db s w0))).
  { intros s w0 H0. unfold fault_free in *.
    rewrite db_exec_runs by (rewrite H0; reflexivity).
    destruct (exec db s (store w0)) as [err|[r d]]; cbn [snd faults];
      rewrite H0; reflexivity. }
  intros H. split.
  - apply (promise_router_inv db options fault_free);
      [exact Hexec|intros ms w0 H0; exact H0|exact H].
  - apply (callback_router_inv db options fault_free);
      [exact Hexec|intros ms w0 H0; exact H0|exact H].
Qed.

End Order.

(* ===================================================================== *)
(** * C8: Update                                                         *)
(* ===================================================================== *)

Section Writes.

Variable db : Engine.
Variable options : Options.

(** However many times it was retried, a write under the retry policy
    either failed and left the store as it was, or ran once on the store. *)
Lemma retryOperation_cases (s : Stmt) (retries : Z) :
  forall w,
  match PromiseRouter.retryOperation options (db_exec db s) retries w with
  | (inl _, w1) => store w1 = store w
  | (inr r, w1) => exec db s (store w) = inr (r, store w1)
  end.
Proof.
  induction retries as [retries IH] using retries_ind. intros w.
  rewrite retryOperation_unfold.
  pose proof (db_exec_cases db s w) as Hc.
  destruct (db_exec db s w) as [[err|r] w1]; [|exact Hc].
  destruct (PromiseRouter.shouldRetry options && busy err && (retries >? 0)) eqn:E;
    [|exact Hc].
  apply andb_prop in E as [_ E]. apply Z.gtb_lt in E.
  specialize (IH (retries - 1) E eq_refl (wait (PromiseRouter.retryDelay options) w1)).
  destruct (PromiseRouter.retryOperation options (db_exec db s) (retries - 1) _)
    as [[err'|r] w2]; cbn [wait log store] in IH; rewrite <- Hc; exact IH.
Qed.

Lemma count_zero (f : Item -> bool) (rs : list Item) :
  count f rs = 0 <-> find f rs = None.
Proof.
  unfold count. induction rs as [|r rs IH]; simpl; [tauto|].
  destruct (f r); simpl; [split; [lia|discriminate]|exact IH].
Qed.

Lemma map_unselected (f : Item -> bool) (g : Item -> Item) (rs : list Item) :
  find f rs = None -> map (fun i => if f i then g i else i) rs = rs.
Proof.
  induction rs as [|r rs IH]; simpl; [reflexivity|].
  destruct (f r); [discriminate|]. intros H. rewrite IH by exact H. reflexivity.
Qed.

Lemma filter_unselected (f : Item -> bool) (rs : list Item) :
  find f rs = None -> filter (fun i => negb (f i)) rs = rs.
Proof.
  induction rs as [|r rs IH]; simpl; [reflexivity|].
  destruct (f r); [discriminate|]. intros H. simpl. rewrite IH by exact H.
  reflexivity.
Qed.

Lemma find_deleted (f : Item -> bool) (rs : list Item) :
  find f (filter (fun i => negb (f i)) rs) = None.
Proof.
  induction rs as [|r rs IH]; simpl; [reflexivity|].
  destruct (f r) eqn:E; simpl; [exact IH|]. rewrite E. exact IH.
Qed.

Lemma id_is_set_fields p nm ds i :
  id_is db p (set_fields nm ds i) = id_is db p i.
Proof. reflexivity. Qed.

Lemma find_updated p nm ds (rs : list Item) :
  find (id_is db p)
       (map (fun i => if id_is db p i then set_fields nm ds i else i) rs)
  = option_map (set_fields nm ds) (find (id_is db p) rs).
Proof.
  induction rs as [|r rs IH]; simpl; [reflexivity|].
  destruct (id_is db p r) eqn:E.
  - rewrite id_is_set_fields, E. reflexivity.
  - rewrite E. exact IH.
Qed.


(** The store after an UPDATE that ran, and what it reported. *)
Lemma exec_update nm ds p d this d' :
  exec db (Update (Some nm) ds p) d = inr (this, d') ->
  changes this = count (id_is db p) (rows d)
  /\ rows d' = map (fun i => if id_is db p i then set_fields nm ds i else i)
                   (rows d)
  /\ seq d' = seq d.
Proof. cbn [exec]. intros E. injection E as <- <-. repeat split. Qed.

End Writes.

Section Update.

Variable db : Engine.
Variable options : Options.

Lemma truthy_name nm : nm <> "" -> negb (Js.truthy (Js.Str nm)) = false.
Proof.
  intros H. simpl. destruct (String.eqb_spec nm ""); [contradiction|reflexivity].
Qed.

Lemma db_eq (d d' : Db) : rows d' = rows d -> seq d' = seq d -> d' = d.
Proof. destruct d, d'; simpl; intros -> ->; reflexivity. Qed.

(** What an Update with a name does in the callback router, by whether the
    id selects a row: a 500, or else 404 and an untouched store, or else
    the updated row and the updated table. *)
Lemma router_put_cases (req : Request) (w : World) nm :
  body_name req = Js.Str nm -> nm <> "" ->
  let sel := id_is db (PText (params_id req)) in
  let ds := bind (body_description req) in
  let out := CallbackRouter.router_put db options req w in
  status (fst out) = 500
  \/ match find sel (rows (store w)) with
     | None =>
         fst out = status_json 404 (JError "Item not found")
         /\ store (snd out) = store w
     | Some i =>
         fst out = json (JRow (Some (set_fields nm ds i)))
         /\ rows (store (snd out))
            = map (fun i => if sel i then set_fields nm ds i else i)
                  (rows (store w))
         /\ seq (store (snd out)) = seq (store w)
     end.
Proof.
  intros Hname Hnm sel ds out. subst out.
  unfold CallbackRouter.router_put. rewrite Hname, truthy_name by exact Hnm.
  rewrite performUpdate_retry. cbn [bind]. fold ds.
  pose proof (retryOperation_cases db options
                (Update (Some nm) ds (PText (params_id req)))
                (CallbackRouter.maxRetries options) w) as Hc.
  destruct (PromiseRouter.retryOperation options _ _ w) as [[err|this] w1];
    [left; reflexivity|].
  apply exec_update in Hc as [Hch [Hrows Hseq]]. fold sel in Hch, Hrows.
  unfold after_update.
  destruct (changes this =? 0) eqn:E.
  - apply Z.eqb_eq in E. rewrite Hch in E. apply count_zero in E.
    right. rewrite E. split; [reflexivity|]. cbn [snd].
    apply db_eq; [|exact Hseq]. rewrite Hrows. apply map_unselected, E.
  - apply Z.eqb_neq in E. rewrite Hch in E.
    destruct (find sel (rows (store w))) as [i|] eqn:Hfind;
      [|exfalso; apply E, count_zero, Hfind].
    pose proof (db_exec_cases db (SelectById (PText (params_id req))) w1) as Hs.
    destruct (db_exec db (SelectById (PText (params_id req))) w1)
      as [[err|row] w2]; [left; reflexivity|].
    cbn [exec] in Hs. injection Hs as Hrow Hst. fold sel in Hrow.
    right. cbn [fst snd]. rewrite <- Hst, <- Hrow, Hrows.
    unfold sel at 1 2. rewrite find_updated. fold sel. rewrite Hfind.
    repeat split. exact Hseq.
Qed.

(** The same for the promise router, which probes after the UPDATE. *)
Lemma updateItem_cases (req : Request) (w : World) nm :
  body_name req = Js.Str nm -> nm <> "" ->
  let sel := id_is db (PText (params_id req)) in
  let ds := bind (body_description req) in
  let out := PromiseRouter.updateItem db options req w in
  status (fst out) = 500
  \/ match find sel (rows (store w)) with
     | None =>
         fst out = status_json 404 (JError "Item not found")
         /\ store (snd out) = store w
     | Some i =>
         fst out = json (JRow (Some (set_fields nm ds i)))
         /\ rows (store (snd out))
            = map (fun i => if sel i then set_fields nm ds i else i)
                  (rows (store w))
         /\ seq (store (snd out)) = seq (store w)
     end.
Proof.
  intros Hname Hnm sel ds out. subst out.
  unfold PromiseRouter.updateItem. rewrite Hname, truthy_name by exact Hnm.
  unfold PromiseRouter.try_catch, PromiseRouter.and_then, PromiseRouter.dbGet,
    PromiseRouter.resolve.
  rewrite retryOperation_dbRun. cbn [bind]. fold ds.
  pose proof (retryOperation_cases db options
                (Update (Some nm) ds (PText (params_id req)))
                (PromiseRouter.maxRetries options) w) as Hc.
  destruct (PromiseRouter.retryOperation options _ _ w) as [[err|this] w1];
    [left; reflexivity|].
  apply exec_update in Hc as [Hch [Hrows Hseq]]. fold sel in Hch, Hrows.
  pose proof (db_exec_cases db (SelectById (PText (params_id req))) w1) as Hs.
  destruct (db_exec db (SelectById (PText (params_id req))) w1)
    as [[err|row] w2]; [left; reflexivity|].
  cbn [exec] in Hs. injection Hs as Hrow Hst. fold sel in Hrow.
  rewrite Hrows in Hrow. unfold sel at 1 2 in Hrow.
  rewrite find_updated in Hrow. fold sel in Hrow.
  right. destruct (find sel (rows (store w))) as [i|] eqn:Hfind;
    cbn [option_map] in Hrow; subst row; cbn [fst snd].
  - rewrite <- Hst, Hrows. repeat split. exact Hseq.
  - split; [reflexivity|]. rewrite <- Hst.
    apply db_eq; [|exact Hseq]. rewrite Hrows. apply map_unselected, Hfind.
Qed.


End Update.


(* ===================================================================== *)
(** * C1, C3: Delete, and how NotFound is decided                        *)
(* ===================================================================== *)

Section Delete.

Variable db : Engine.
Variable options : Options.

Lemma exec_delete p d this d' :
  exec db (Delete p) d = inr (this, d') ->
  changes this = count (id_is db p) (rows d)
  /\ rows d' = filter (fun i => negb (id_is db p i)) (rows d)
  /\ seq d' = seq d.
Proof. cbn [exec]. intros E. injection E as <- <-. repeat split. Qed.

(** What a Delete does in the callback router: a 500, or else 404 and an
    untouched store when the id selects no row, or else the
    acknowledgment and the table without the rows selected. *)
Lemma router_delete_cases (req : Request) (w : World) :
  let sel := id_is db (PText (params_id req)) in
  let out := CallbackRouter.router_delete db options req w in
  status (fst out) = 500
  \/ match find sel (rows (store w)) with
     | None =>
         fst out = status_json 404 (JError "Item not found")
         /\ store (snd out) = store w
     | Some _ =>
         fst out = json (JMessage "Item deleted")
         /\ rows (store (snd out))
            = filter (fun i => negb (sel i)) (rows (store w))
         /\ seq (store (snd out)) = seq (store w)
     end.
Proof.
  intros sel out. subst out. unfold CallbackRouter.router_delete.
  rewrite performDelete_retry.
  pose proof (retryOperation_cases db options (Delete (PText (params_id req)))
                (CallbackRouter.maxRetries options) w) as Hc.
  destruct (PromiseRouter.retryOperation options _ _ w) as [[err|this] w1];
    [left; reflexivity|].
  apply exec_delete in Hc as [Hch [Hrows Hseq]]. fold sel in Hch, Hrows.
  unfold after_delete. right.
  destruct (changes this =? 0) eqn:E.
  - apply Z.eqb_eq in E. rewrite Hch in E. apply count_zero in E.
    rewrite E. split; [reflexivity|]. cbn [snd].
    apply db_eq; [|exact Hseq]. rewrite Hrows. apply filter_unselected, E.
  - apply Z.eqb_neq in E. rewrite Hch in E.
    destruct (find sel (rows (store w))) as [i|] eqn:Hfind;
      [|exfalso; apply E, count_zero, Hfind].
    cbn [fst snd]. repeat split; assumption.
Qed.

(** What a Delete does in the promise router: a 500, or else the
    acknowledgment, whether or not the id selected a row: the probe runs
    after the DELETE and finds nothing. *)
Lemma deleteItem_cases (req : Request) (w : World) :
  let sel := id_is db (PText (params_id req)) in
  let out := PromiseRouter.deleteItem db options req w in
  status (fst out) = 500
  \/ (fst out = json (JMessage "Item deleted")
      /\ rows (store (snd out))
         = filter (fun i => negb (sel i)) (rows (store w))
      /\ seq (store (snd out)) = seq (store w)).
Proof.
  intros sel out. subst out. unfold PromiseRouter.deleteItem.
  unfold PromiseRouter.try_catch, PromiseRouter.and_then, PromiseRouter.dbGet,
    PromiseRouter.resolve.
  rewrite retryOperation_dbRun.
  pose proof (retryOperation_cases db options (Delete (PText (params_id req)))
                (PromiseRouter.maxRetries options) w) as Hc.
  destruct (PromiseRouter.retryOperation options _ _ w) as [[err|this] w1];
    [left; reflexivity|].
  apply exec_delete in Hc as [Hch [Hrows Hseq]]. fold sel in Hch, Hrows.
  pose proof (db_exec_cases db (SelectById (PText (params_id req))) w1) as Hs.
  destruct (db_exec db (SelectById (PText (params_id req))) w1)
    as [[err|row] w2]; [left; reflexivity|].
  cbn [exec] in Hs. injection Hs as Hrow Hst. fold sel in Hrow.
  rewrite Hrows, find_deleted in Hrow. subst row. right. cbn [fst snd].
  rewrite <- Hst. repeat split; assumption.
Qed.

(** In the promise router no Delete is ever answered 404. *)
Lemma deleteItem_never_not_found (req : Request) (w : World) :
  status (fst (PromiseRouter.deleteItem db options req w)) <> 404.
Proof.
  destruct (deleteItem_cases req w) as [H | [H _]]; rewrite H; discriminate.
Qed.

(** In the callback router a Delete of an id that selects no row is never
    acknowledged: it is answered 404 with [{ error: "Item not found" }],
    or 500 when the statement itself failed. *)
Lemma router_delete_absent (req : Request) (w : World) :
  find (id_is db (PText (params_id req))) (rows (store w)) = None ->
  fst (CallbackRouter.router_delete db options req w)
    = status_json 404 (JError "Item not found")
  \/ status (fst (CallbackRouter.router_delete db options req w)) = 500.
Proof.
  intros Hfind. destruct (router_delete_cases req w) as [H|H];
    [right; exact H|]. rewrite Hfind in H. left. apply H.
Qed.

End Delete.

(** C1, at the failing input.  In the promise router a Delete of id 42,
    which no row of the table has, is answered 200 with the acknowledgment
    [{ message: "Item deleted" }], after a DELETE that affected no row and a
    probe issued once the DELETE is over. *)
Theorem promise_delete_of_absent_id :
  find (id_is decimal_engine (PText "42")) (rows (store three_items)) = None
  /\ PromiseRouter.deleteItem decimal_engine no_options (id_request "42")
       three_items
     = (json (JMessage "Item deleted"),
        mkWorld (store three_items) []
          [Issued (Delete (PText "42")); Issued (SelectById (PText "42"))]).
Proof. split; reflexivity. Qed.

Section Probes.

Variable db : Engine.
Variable options : Options.







End Probes.




(* ===================================================================== *)
(** * C2: Create, then GetById                                           *)
(* ===================================================================== *)

Section Create.

Variable db : Engine.
Variable options : Options.

(** GetById is the same in both routers. *)
Lemma get_handlers_agree (req : Request) (w : World) :
  PromiseRouter.getItemById db req w = CallbackRouter.router_get_id db req w.
Proof.
  unfold PromiseRouter.getItemById, CallbackRouter.router_get_id,
    PromiseRouter.try_catch, PromiseRouter.and_then, PromiseRouter.dbGet,
    PromiseRouter.resolve.
  destruct (db_exec db (SelectById _) w) as [[err|[i|]] w1]; reflexivity.
Qed.

(** What GetById answers: a 500, or else the first row the id selects, or
    else 404. *)
Lemma router_get_id_cases (req : Request) (w : World) :
  let out := CallbackRouter.router_get_id db req w in
  store (snd out) = store w
  /\ (status (fst out) = 500
      \/ fst out =
         match find (id_is db (PText (params_id req))) (rows (store w)) with
         | Some i => json (JRow (Some i))
         | None => status_json 404 (JError "Item not found")
         end).
Proof.
  intros out. subst out. unfold CallbackRouter.router_get_id.
  pose proof (db_exec_cases db (SelectById (PText (params_id req))) w) as Hc.
  destruct (db_exec db (SelectById (PText (params_id req))) w)
    as [[err|row] w1].
  - split; [exact Hc|left; reflexivity].
  - cbn [exec] in Hc. injection Hc as Hrow Hst. subst row.
    destruct (find _ (rows (store w)));
      (split; [symmetry; exact Hst|right; reflexivity]).
Qed.

Lemma find_ext {A} (f g : A -> bool) (l : list A) :
  (forall a, f a = g a) -> find f l = find g l.
Proof.
  intros H. induction l as [|a l IH]; simpl; [reflexivity|].
  rewrite H, IH. reflexivity.
Qed.

(** A text the engine reads as the number [z] selects what [z] selects. *)
Lemma find_text_id (k : string) (z : Z) (rs : list Item) :
  to_integer db k = Some z ->
  find (id_is db (PText k)) rs = find (id_is db (PInt z)) rs.
Proof. intros H. apply find_ext. intros a. simpl. rewrite H. reflexivity. Qed.

Lemma greatest_id_from (best : option Item) (rs : list Item) (b : Item) :
  fold_left
    (fun best i =>
       match best with
       | Some b => if item_id b <? item_id i then Some i else Some b
       | None => Some i
       end) rs best = Some b ->
  In b rs \/ best = Some b.
Proof.
  revert best. induction rs as [|r rs IH]; intros best H; simpl in *;
    [right; exact H|].
  apply IH in H as [H|H]; [left; right; exact H|].
  destruct best as [b0|].
  - destruct (item_id b0 <? item_id r); injection H as <-;
      [left; left|right]; reflexivity.
  - injection H as <-. left; left; reflexivity.
Qed.

(** Among rows that all have a smaller id, a row added last is the one of
    greatest id. *)
Lemma greatest_id_snoc (rs : list Item) (x : Item) :
  (forall i, In i rs -> item_id i < item_id x) ->
  greatest_id (rs ++ [x]) = Some x.
Proof.
  intros H. unfold greatest_id. rewrite fold_left_app. simpl.
  destruct (fold_left _ rs None) as [b|] eqn:E; [|reflexivity].
  apply greatest_id_from in E as [E|E]; [|discriminate].
  replace (item_id b <? item_id x) with true
    by (symmetry; apply Z.ltb_lt, H, E).
  reflexivity.
Qed.

Lemma exec_insert nm ds d this d' :
  exec db (Insert (Some nm) ds) d = inr (this, d') ->
  lastID this = next_id d
  /\ rows d' = rows d ++ [mkItem (next_id d) nm ds]
  /\ seq d' = next_id d.
Proof. cbn [exec]. intros E. injection E as <- <-. repeat split. Qed.

(** Create in the callback router, when it is not answered 500: the
    response is the new row, with the id the INSERT assigned. *)
Lemma router_post_cases (req : Request) (w : World) nm :
  body_name req = Js.Str nm -> nm <> "" ->
  let created := mkItem (next_id (store w)) nm (bind (body_description req)) in
  let out := CallbackRouter.router_post db options req w in
  status (fst out) = 500
  \/ (fst out = json (JRow (Some created))
      /\ rows (store (snd out)) = rows (store w) ++ [created]
      /\ seq (store (snd out)) = next_id (store w)).
Proof.
  intros Hname Hnm created out. subst out.
  unfold CallbackRouter.router_post. rewrite Hname, truthy_name by exact Hnm.
  rewrite performInsert_retry. cbn [bind].
  pose proof (retryOperation_cases db options
                (Insert (Some nm) (bind (body_description req)))
                (CallbackRouter.maxRetries options) w) as Hc.
  destruct (PromiseRouter.retryOperation options _ _ w) as [[err|this] w1];
    [left; reflexivity|].
  apply exec_insert in Hc as [Hid [Hrows Hseq]].
  unfold after_insert.
  pose proof (db_exec_cases db (SelectById (PInt (lastID this))) w1) as Hs.
  destruct (db_exec db (SelectById (PInt (lastID this))) w1)
    as [[err|row] w2]; [left; reflexivity|].
  cbn [exec] in Hs. injection Hs as Hrow Hst.
  rewrite Hid, Hrows, find_inserted in Hrow. subst row.
  right. cbn [fst snd]. rewrite <- Hst. repeat split; assumption.
Qed.

(** Create in the promise router, when it is not answered 500: the row is
    added as in the callback router, but the response is looked up by name
    and description, and the comparison with a description bound as NULL
    is never true. *)
Lemma createNewItem_cases (req : Request) (w : World) nm :
  body_name req = Js.Str nm -> nm <> "" ->
  let created := mkItem (next_id (store w)) nm (bind (body_description req)) in
  let out := PromiseRouter.createNewItem db options req w in
  status (fst out) = 500
  \/ (fst out = json (JRow (match bind (body_description req) with
                            | Some _ => Some created
                            | None => None
                            end))
      /\ rows (store (snd out)) = rows (store w) ++ [created]
      /\ seq (store (snd out)) = next_id (store w)).
Proof.
  intros Hname Hnm created out. subst out.
  unfold PromiseRouter.createNewItem. rewrite Hname, truthy_name by exact Hnm.
  unfold PromiseRouter.try_catch, PromiseRouter.and_then, PromiseRouter.dbGet,
    PromiseRouter.resolve.
  rewrite retryOperation_dbRun. cbn [bind].
  pose proof (retryOperation_cases db options
                (Insert (Some nm) (bind (body_description req)))
                (PromiseRouter.maxRetries options) w) as Hc.
  destruct (PromiseRouter.retryOperation options _ _ w) as [[err|this] w1];
    [left; reflexivity|].
  apply exec_insert in Hc as [Hid [Hrows Hseq]].
  pose proof (db_exec_cases db
                (SelectLastByNameDesc (Some nm) (bind (body_description req)))
                w1) as Hs.
  destruct (db_exec db (SelectLastByNameDesc _ _) w1)
    as [[err|row] w2]; [left; reflexivity|].
  cbn [exec] in Hs. injection Hs as Hrow Hst.
  right. cbn [fst snd]. rewrite <- Hst. split; [|split; assumption].
  f_equal. f_equal. subst row. rewrite Hrows, filter_app. fold created.
  destruct (bind (body_description req)) as [ds|] eqn:Hd.
  - cbn [filter item_name item_description created sql_eq].
    rewrite !String.eqb_refl. cbn [andb].
    apply greatest_id_snoc. intros i Hi. apply filter_In in Hi as [Hi _].
    apply next_id_fresh, Hi.
  - cbn [filter sql_eq item_description created]. rewrite andb_false_r, app_nil_r.
    replace (filter _ (rows (store w))) with (@nil Item); [reflexivity|].
    symmetry. clear. induction (rows (store w)) as [|r rs IH]; simpl;
      [reflexivity|].
    rewrite andb_comm. destruct (item_description r); simpl; exact IH.
Qed.

(** In the callback router, the item a Create returned is what a GetById
    on its id returns next, for every text the engine reads as that id;
    neither request being answered 500. *)
Lemma router_post_then_get (req : Request) (w : World) nm k w' :
  body_name req = Js.Str nm -> nm <> "" ->
  status (fst (CallbackRouter.router_post db options req w)) <> 500 ->
  to_integer db k = Some (next_id (store w)) ->
  store w' = store (snd (CallbackRouter.router_post db options req w)) ->
  status (fst (CallbackRouter.router_get_id db (id_request k) w')) <> 500 ->
  exists i,
    item_id i = next_id (store w)
    /\ fst (CallbackRouter.router_post db options req w) = json (JRow (Some i))
    /\ fst (CallbackRouter.router_get_id db (id_request k) w')
       = json (JRow (Some i)).
Proof.
  intros Hname Hnm Hpost Hk Hw' Hget.
  destruct (router_post_cases req w nm Hname Hnm) as [H|[Hr [Hrows _]]];
    [contradiction|].
  eexists. split; [|split; [exact Hr|]]; [reflexivity|].
  destruct (router_get_id_cases (id_request k) w') as [_ [H|H]];
    [contradiction|].
  rewrite H, Hw', Hrows. cbn [params_id id_request].
  rewrite (find_text_id k _ _ Hk), find_inserted. reflexivity.
Qed.

(** The same in the promise router when the description is a text. *)
Lemma createNewItem_then_get (req : Request) (w : World) nm ds k w' :
  body_name req = Js.Str nm -> nm <> "" ->
  body_description req = Js.Str ds ->
  status (fst (PromiseRouter.createNewItem db options req w)) <> 500 ->
  to_integer db k = Some (next_id (store w)) ->
  store w' = store (snd (PromiseRouter.createNewItem db options req w)) ->
  status (fst (PromiseRouter.getItemById db (id_request k) w')) <> 500 ->
  exists i,
    item_id i = next_id (store w)
    /\ fst (PromiseRouter.createNewItem db options req w) = json (JRow (Some i))
    /\ fst (PromiseRouter.getItemById db (id_request k) w')
       = json (JRow (Some i)).
Proof.
  intros Hname Hnm Hds Hpost Hk Hw' Hget.
  destruct (createNewItem_cases req w nm Hname Hnm) as [H|[Hr [Hrows _]]];
    [contradiction|].
  rewrite Hds in Hr, Hrows. cbn [bind] in Hr, Hrows.
  eexists. split; [|split; [exact Hr|]]; [reflexivity|].
  rewrite get_handlers_agree in Hget |- *.
  destruct (router_get_id_cases (id_request k) w') as [_ [H|H]];
    [contradiction|].
  rewrite H, Hw', Hrows. cbn [params_id id_request].
  rewrite (find_text_id k _ _ Hk), find_inserted. reflexivity.
Qed.

(** In the promise router a Create without a description, when it is not
    answered 500, is answered 200 with no item. *)
Lemma createNewItem_without_description (req : Request) (w : World) nm :
  body_name req = Js.Str nm -> nm <> "" ->
  body_description req = Js.Undefined \/ body_description req = Js.Null ->
  status (fst (PromiseRouter.createNewItem db options req w)) <> 500 ->
  fst (PromiseRouter.createNewItem db options req w) = json (JRow None).
Proof.
  intros Hname Hnm Hds Hpost.
  destruct (createNewItem_cases req w nm Hname Hnm) as [H|[Hr _]];
    [contradiction|].
  rewrite Hr. destruct Hds as [-> | ->]; reflexivity.
Qed.

End Create.

(** C2, at the failing input.  In the promise router a Create of
    [{ name: "a" }] on the empty table stores the row with id 1 but is
    answered 200 with no item, and the GetById on id 1 that follows returns
    the item [{ id: 1, name: "a", description: null }]: the two bodies
    differ. *)
Theorem promise_create_without_description :
  fst (PromiseRouter.createNewItem decimal_engine no_options
         (body_request "" (Js.Str "a") Js.Undefined) empty_world)
  = json (JRow None)
  /\ fst (PromiseRouter.getItemById decimal_engine (id_request "1")
            (snd (PromiseRouter.createNewItem decimal_engine no_options
                    (body_request "" (Js.Str "a") Js.Undefined) empty_world)))
     = json (JRow (Some (mkItem 1 "a" None))).
Proof. split; reflexivity. Qed.

(* ===================================================================== *)
(** * C9: storage initialisation                                         *)
(* ===================================================================== *)

Section Schema.

Import Storage.

Lemma filter_absent (name : string) (ts : list (string * Schema)) :
  existsb (fun t => String.eqb (fst t) name) ts = false ->
  filter (fun t => String.eqb (fst t) name) ts = [].
Proof.
  induction ts as [|t ts IH]; simpl; [reflexivity|].
  destruct (String.eqb (fst t) name); simpl; [discriminate|exact IH].
Qed.

Lemma absent_not_in (name : string) (ts : list (string * Schema)) :
  ~ In name (map fst ts) ->
  existsb (fun t => String.eqb (fst t) name) ts = false.
Proof.
  induction ts as [|t ts IH]; simpl; [reflexivity|]. intros H.
  destruct (String.eqb_spec (fst t) name) as [E|E]; simpl.
  - exfalso. apply H. left. exact E.
  - apply IH. intros Hin. apply H. right. exact Hin.
Qed.

(** In a catalogue that names each table once, a table that is there is
    there once. *)
Lemma present_once (name : string) (ts : list (string * Schema)) :
  NoDup (map fst ts) ->
  existsb (fun t => String.eqb (fst t) name) ts = true ->
  List.length (filter (fun t => String.eqb (fst t) name) ts) = 1%nat.
Proof.
  induction ts as [|t ts IH]; simpl; [discriminate|].
  intros Hnd. inversion Hnd as [|? ? Hnotin Hnd']; subst.
  destruct (String.eqb_spec (fst t) name) as [E|E]; simpl.
  - intros _. rewrite filter_absent; [reflexivity|].
    apply absent_not_in. rewrite <- E. exact Hnotin.
  - apply IH, Hnd'.
Qed.

(** The file [createDatabase] leaves: WAL, and the catalogue with [items]
    added unless a table of that name was there. *)
Lemma createDatabase_file (disk : option File) :
  let f := match disk with Some f => f | None => mkFile "delete" [] end in
  createDatabase disk
  = Returned
      (mkHandle
         (mkFile "WAL"
            (if has_table "items" f then tables f
             else tables f ++ [("items", items_schema)]))
         (mkSettings "NORMAL" "MEMORY" 30000000000) true).
Proof.
  intros f. unfold createDatabase, open. fold f.
  cbn [run_all runQuery run file settings on_error tables journal_mode
       synchronous temp_store mmap_size].
  unfold has_table. cbn [tables file].
  destruct (existsb _ (tables f)); reflexivity.
Qed.

Lemma has_table_app name (ts : list (string * Schema)) x jm :
  has_table name (mkFile jm (ts ++ [x]))
  = has_table name (mkFile jm ts) || String.eqb (fst x) name.
Proof.
  unfold has_table. cbn [tables]. rewrite existsb_app. simpl.
  rewrite orb_false_r. reflexivity.
Qed.

(** Without IF NOT EXISTS the statement fails on a table that exists: the
    guard is what makes the second initialisation succeed. *)
Lemma create_table_twice_fails (h : Handle) name cols :
  has_table name (file h) = true ->
  run (CREATE_TABLE false name cols) h = inl (table_exists_error name).
Proof. intros H. cbn [run]. rewrite H. reflexivity. Qed.

End Schema.

(** C9.  On a database file that is absent, or whose catalogue names each
    table once, [createDatabase] returns a handle, the process does not
    exit; run again on the file it left, it returns again, the file is the
    same as after the first run, and the catalogue has exactly one table
    named [items], with the schema it had after the first run. *)
Theorem schema_creation_idempotent (disk : option Storage.File) :
  Storage.well_formed disk ->
  exists db1 db2,
    Storage.createDatabase disk = Storage.Returned db1
    /\ Storage.createDatabase (Some (Storage.file db1)) = Storage.Returned db2
    /\ Storage.file db2 = Storage.file db1
    /\ List.length (Storage.tables_named "items" (Storage.file db2)) = 1%nat
    /\ Storage.tables_named "items" (Storage.file db2)
       = Storage.tables_named "items" (Storage.file db1).
Proof.
  intros Hwf.
  rewrite (createDatabase_file disk).
  eexists. rewrite createDatabase_file. eexists.
  split; [reflexivity|]. split; [reflexivity|].
  cbn [Storage.file].
  set (f := match disk with Some f => f | None => Storage.mkFile "delete" [] end).
  assert (Hnd : NoDup (map fst (Storage.tables f))).
  { subst f. destruct disk as [f|]; [exact Hwf|constructor]. }
  assert (Hhas : Storage.has_table "items"
            (Storage.mkFile "WAL"
               (if Storage.has_table "items" f then Storage.tables f
                else Storage.tables f ++ [("items", Storage.items_schema)]))
          = true).
  { destruct (Storage.has_table "items" f) eqn:E.
    - exact E.
    - rewrite has_table_app. apply orb_true_r. }
  rewrite Hhas. split; [reflexivity|]. split; [|reflexivity].
  unfold Storage.tables_named. rewrite length_map. cbn [Storage.tables].
  destruct (Storage.has_table "items" f) eqn:E.
  - apply present_once; assumption.
  - rewrite filter_app, filter_absent by exact E. reflexivity.
Qed.

Lemma schema_creation_idempotent_witness :
  exists db1 db2,
    Storage.createDatabase None = Storage.Returned db1
    /\ Storage.createDatabase (Some (Storage.file db1)) = Storage.Returned db2
    /\ Storage.file db2 = Storage.file db1
    /\ List.length (Storage.tables_named "items" (Storage.file db2)) = 1%nat
    /\ Storage.tables_named "items" (Storage.file db2)
       = Storage.tables_named "items" (Storage.file db1).
Proof. exact (schema_creation_idempotent None I). Defined.

(* ===================================================================== *)
(** * C10: the two routers side by side                                  *)
(* ===================================================================== *)

(** Where the two routers agree. *)

Section Agreement.

Variable db : Engine.
Variable options : Options.

Lemma db_exec_fault_free (s : Stmt) (w : World) :
  fault_free w ->
  db_exec db s w =
  match exec db s (store w) with
  | inl err => (inl err, mkWorld (store w) [] (trace w ++ [Issued s]))
  | inr (r, d) => (inr r, mkWorld d [] (trace w ++ [Issued s]))
  end.
Proof.
  intros H. unfold fault_free in H.
  rewrite db_exec_runs by (rewrite H; reflexivity). rewrite H. reflexivity.
Qed.

Lemma exec_error_not_busy (s : Stmt) (d : Db) err :
  exec db s d = inl err -> busy err = false.
Proof.
  destruct s as [l o| |p|n ds|[nm|] ds|[nm|] ds p|p]; cbn [exec];
    try discriminate.
  - intros E. injection E as <-. reflexivity.
  - destruct (existsb _ _); [|discriminate]. intros E. injection E as <-.
    reflexivity.
Qed.

(** Without storage failures nothing is retried. *)
Lemma retry_fault_free (s : Stmt) (retries : Z) (w : World) :
  fault_free w ->
  PromiseRouter.retryOperation options (db_exec db s) retries w
  = db_exec db s w.
Proof.
  intros H. rewrite retryOperation_unfold, db_exec_fault_free by exact H.
  destruct (exec db s (store w)) as [err|[r d]] eqn:E; [|reflexivity].
  rewrite (exec_error_not_busy s _ err E), andb_false_r. reflexivity.
Qed.

Ltac run_fault_free H :=
  repeat (first [ rewrite retry_fault_free by (exact H || reflexivity)
                | rewrite db_exec_fault_free by (exact H || reflexivity) ];
          cbn [exec bind store lastID changes fst snd]).

(** Without storage failures the callback router never answers 500. *)
Lemma callback_no_fault_no_500 (route : Route) (req : Request) (w : World) :
  fault_free w ->
  status (fst (CallbackRouter.itemsRouter db options route req w)) <> 500.
Proof.
  intros H. destruct route; cbn [CallbackRouter.itemsRouter];
    unfold CallbackRouter.router_get, CallbackRouter.router_get_id,
      CallbackRouter.router_post, CallbackRouter.router_put,
      CallbackRouter.router_delete;
    rewrite ?performInsert_retry, ?performUpdate_retry, ?performDelete_retry;
    unfold after_insert, after_update, after_delete;
    try (destruct (body_name req) as [| |nm]; cbn [Js.truthy negb];
         try discriminate;
         destruct (String.eqb nm ""); cbn [negb]; try discriminate;
         rewrite ?performInsert_retry, ?performUpdate_retry);
    unfold after_insert, after_update, after_delete;
    run_fault_free H;
    repeat match goal with
           | |- context [if ?b then _ else _] => destruct b
           | |- context [match ?o with Some _ => _ | None => _ end] => destruct o
           end;
    run_fault_free H; discriminate.
Qed.

(** Without storage failures the promise router never answers 500. *)
Lemma promise_no_fault_no_500 (route : Route) (req : Request) (w : World) :
  fault_free w ->
  status (fst (PromiseRouter.itemsRouter db options route req w)) <> 500.
Proof.
  intros H. destruct route; cbn [PromiseRouter.itemsRouter];
    unfold PromiseRouter.getAllItems, PromiseRouter.getItemById,
      PromiseRouter.createNewItem, PromiseRouter.updateItem,
      PromiseRouter.deleteItem;
    try (destruct (body_name req) as [| |nm]; cbn [Js.truthy negb];
         try discriminate;
         destruct (String.eqb nm ""); cbn [negb]; try discriminate);
    unfold PromiseRouter.try_catch, PromiseRouter.and_then,
      PromiseRouter.dbAll, PromiseRouter.dbGet, PromiseRouter.resolve;
    rewrite ?retryOperation_dbRun;
    run_fault_free H;
    repeat match goal with
           | |- context [match ?o with Some _ => _ | None => _ end] => destruct o
           end;
    discriminate.
Qed.

Lemma falsy_name (v : Js.Field) :
  negb (Js.truthy v) = false -> exists nm, v = Js.Str nm /\ nm <> "".
Proof.
  destruct v as [| |nm]; cbn; try discriminate.
  destruct (String.eqb_spec nm ""); [discriminate|]. intros _. exists nm. auto.
Qed.

Lemma existsb_find {A} (f : A -> bool) (l : list A) :
  existsb f l = true -> exists a, find f l = Some a.
Proof.
  induction l as [|a l IH]; simpl; [discriminate|].
  destruct (f a); [intros _; exists a; reflexivity|exact IH].
Qed.

(** From the same store and without storage failures, the two routers
    answer a request that avoids the slips with the same response and
    leave the same store. *)
Lemma routers_agree_on_request (route : Route) (req : Request) (w1 w2 : World) :
  store w1 = store w2 -> fault_free w1 -> fault_free w2 ->
  avoids_slips db route req (store w1) = true ->
  fst (PromiseRouter.itemsRouter db options route req w1)
  = fst (CallbackRouter.itemsRouter db options route req w2)
  /\ store (snd (PromiseRouter.itemsRouter db options route req w1))
     = store (snd (CallbackRouter.itemsRouter db options route req w2)).
Proof.
  intros Hst H1 H2 Hav.
  pose proof (promise_no_fault_no_500 route req w1 H1) as Hp.
  pose proof (callback_no_fault_no_500 route req w2 H2) as Hc.
  destruct route; cbn [PromiseRouter.itemsRouter CallbackRouter.itemsRouter] in *.
  - rewrite list_handlers_agree in Hp |- *.
    destruct (router_get_cases db req w1) as [_ [Hs1 [E1|E1]]]; [contradiction|].
    destruct (router_get_cases db req w2) as [_ [Hs2 [E2|E2]]]; [contradiction|].
    rewrite E1, E2, Hs1, Hs2, Hst. split; reflexivity.
  - rewrite get_handlers_agree in Hp |- *.
    destruct (router_get_id_cases db req w1) as [Hs1 [E1|E1]]; [contradiction|].
    destruct (router_get_id_cases db req w2) as [Hs2 [E2|E2]]; [contradiction|].
    rewrite E1, E2, Hs1, Hs2, Hst. split; reflexivity.
  - cbn [avoids_slips] in Hav.
    destruct (negb (Js.truthy (body_name req))) eqn:Hname.
    + unfold PromiseRouter.createNewItem, CallbackRouter.router_post.
      rewrite Hname. split; [reflexivity|exact Hst].
    + apply falsy_name in Hname as [nm [Hname Hnm]]. cbn [orb] in Hav.
      destruct (createNewItem_cases db options req w1 nm Hname Hnm)
        as [E1|[E1 [R1 S1]]]; [contradiction|].
      destruct (router_post_cases db options req w2 nm Hname Hnm)
        as [E2|[E2 [R2 S2]]]; [contradiction|].
      rewrite E1, E2, Hst. destruct (body_description req); try discriminate.
      split; [reflexivity|]. apply db_eq; congruence.
  - destruct (negb (Js.truthy (body_name req))) eqn:Hname.
    + unfold PromiseRouter.updateItem, CallbackRouter.router_put.
      rewrite Hname. split; [reflexivity|exact Hst].
    + apply falsy_name in Hname as [nm [Hname Hnm]].
      destruct (updateItem_cases db options req w1 nm Hname Hnm) as [E1|E1];
        [contradiction|].
      destruct (router_put_cases db options req w2 nm Hname Hnm) as [E2|E2];
        [contradiction|].
      rewrite Hst in E1.
      destruct (find _ (rows (store w2))) as [i|].
      * destruct E1 as [E1 [R1 S1]], E2 as [E2 [R2 S2]]. rewrite E1, E2.
        split; [reflexivity|]. apply db_eq; congruence.
      * destruct E1 as [E1 S1], E2 as [E2 S2]. rewrite E1, E2, S1, S2.
        split; reflexivity.
  - cbn [avoids_slips] in Hav. rewrite Hst in Hav.
    apply existsb_find in Hav as [i Hfind].
    destruct (deleteItem_cases db options req w1) as [E1|[E1 [R1 S1]]];
      [contradiction|].
    destruct (router_delete_cases db options req w2) as [E2|E2];
      [contradiction|].
    rewrite Hfind in E2. destruct E2 as [E2 [R2 S2]]. rewrite E1, E2.
    split; [reflexivity|]. apply db_eq; congruence.
Qed.

(** The same for every sequence of requests that each avoid the slips. *)
Lemma routers_agree (reqs : list (Route * Request)) :
  forall w1 w2,
    store w1 = store w2 -> fault_free w1 -> fault_free w2 ->
    all_avoid_slips db (CallbackRouter.itemsRouter db options) reqs w2 = true ->
    fst (serve (PromiseRouter.itemsRouter db options) reqs w1)
    = fst (serve (CallbackRouter.itemsRouter db options) reqs w2)
    /\ store (snd (serve (PromiseRouter.itemsRouter db options) reqs w1))
       = store (snd (serve (CallbackRouter.itemsRouter db options) reqs w2)).
Proof.
  induction reqs as [|[route req] reqs IH]; intros w1 w2 Hst H1 H2 Hav.
  - split; [reflexivity|exact Hst].
  - cbn [all_avoid_slips] in Hav. apply andb_prop in Hav as [Hav Hrest].
    rewrite <- Hst in Hav.
    destruct (routers_agree_on_request route req w1 w2 Hst H1 H2 Hav)
      as [Hr Hs].
    pose proof (proj1 (routers_keep_fault_free db options route req w1 H1)) as F1.
    pose proof (proj2 (routers_keep_fault_free db options route req w2 H2)) as F2.
    cbn [serve].
    destruct (PromiseRouter.itemsRouter db options route req w1) as [r1 w1'].
    destruct (CallbackRouter.itemsRouter db options route req w2) as [r2 w2'].
    cbn [fst snd] in *.
    destruct (IH w1' w2' Hs F1 F2 Hrest) as [Hrs Hss].
    destruct (serve (PromiseRouter.itemsRouter db options) reqs w1') as [rs1 x1].
    destruct (serve (CallbackRouter.itemsRouter db options) reqs w2') as [rs2 x2].
    cbn [fst snd] in *. subst. split; [reflexivity|exact Hss].
Qed.

End Agreement.

(** C10, at the failing input.  On the one-request sequence made of a
    Delete of id 42, which no row of the table has, the callback router
    answers 404 [{ error: "Item not found" }] and the promise router
    answers 200 [{ message: "Item deleted" }]. *)
Theorem routers_differ_on_delete_of_absent_id :
  fst (serve (CallbackRouter.itemsRouter decimal_engine no_options)
         [(DELETE_item, id_request "42")] three_items)
  = [status_json 404 (JError "Item not found")]
  /\ fst (serve (PromiseRouter.itemsRouter decimal_engine no_options)
            [(DELETE_item, id_request "42")] three_items)
     = [json (JMessage "Item deleted")].
Proof. split; reflexivity. Qed.

(* ===================================================================== *)
(** * Reads                                                              *)
(* ===================================================================== *)

Import Facts.

Lemma in_routers db options (router : Route -> Request -> World -> Response * World) :
  In router (routers db options) ->
  router = PromiseRouter.itemsRouter db options
  \/ router = CallbackRouter.itemsRouter db options.
Proof. intros [H|[H|[]]]; [left|right]; symmetry; exact H. Qed.

(** X1.  A GetById, in either router and whatever the retry options,
    issues its one SELECT once and leaves the store as it was.  When that
    statement fails, even with SQLITE_BUSY and retry enabled, the answer is
    500 with the error's message: reads are not retried.  When it runs, the
    answer is the first row the id selects, or 404
    [{ error: "Item not found" }] when it selects none. *)
Theorem get_by_id_reads_once (db : Engine) (options : Options)
  (router : Route -> Request -> World -> Response * World)
  (req : Request) (w : World) (out : Response * World) :
  In router (routers db options) ->
  out = router GET_item req w ->
  store (snd out) = store w
  /\ trace (snd out) = trace w ++ [Issued (SelectById (PText (params_id req)))]
  /\ (forall err fs,
        faults w = Some err :: fs ->
        fst out = status_json 500 (JError (message err)))
  /\ (hd None (faults w) = None ->
      fst out =
      match find (id_is db (PText (params_id req))) (rows (store w)) with
      | Some i => json (JRow (Some i))
      | None => status_json 404 (JError "Item not found")
      end).
Proof.
  intros Hr ->.
  assert (E : router GET_item req w = CallbackRouter.router_get_id db req w).
  { destruct (in_routers _ _ _ Hr) as [-> | ->];
      [apply get_handlers_agree|reflexivity]. }
  rewrite E. clear E Hr router. unfold CallbackRouter.router_get_id.
  pose proof (db_exec_trace db (SelectById (PText (params_id req))) w) as Ht.
  pose proof (db_exec_cases db (SelectById (PText (params_id req))) w) as Hc.
  split; [|split; [|split]].
  - destruct (db_exec db _ w) as [[err|[i|]] w1]; cbn [fst snd] in *;
      try exact Hc; cbn [exec] in Hc; injection Hc as _ Hc; symmetry; exact Hc.
  - destruct (db_exec db _ w) as [[err|[i|]] w1]; exact Ht.
  - intros err fs Hf. rewrite (db_exec_fault db _ w err fs Hf). reflexivity.
  - intros Hf. rewrite (db_exec_runs db _ w Hf). cbn [exec].
    destruct (find _ (rows (store w))); reflexivity.
Qed.

Lemma get_by_id_reads_once_witness :
  fst (PromiseRouter.itemsRouter decimal_engine retry_options GET_item
         (id_request "2")
         (mkWorld (store three_items) [Some busy_error] []))
  = status_json 500 (JError "SQLITE_BUSY: database is locked")
  /\ fst (CallbackRouter.itemsRouter decimal_engine retry_options GET_item
            (id_request "2") three_items)
     = json (JRow (Some (mkItem 2 "b" (Some "two")))).
Proof.
  split.
  - destruct (get_by_id_reads_once decimal_engine retry_options _
                (id_request "2")
                (mkWorld (store three_items) [Some busy_error] []) _
                (or_introl eq_refl) eq_refl) as [_ [_ [H _]]].
    exact (H busy_error [] eq_refl).
  - destruct (get_by_id_reads_once decimal_engine retry_options _
                (id_request "2") three_items _
                (or_intror (or_introl eq_refl)) eq_refl) as [_ [_ [_ H]]].
    exact (H eq_refl).
Defined.

(** X2.  A List, in either router and whatever the retry options, leaves
    the store as it was and issues the page query, then at most the count
    query: never a write, never a wait, never a second attempt.  When the
    page query fails, even with SQLITE_BUSY and retry enabled, the answer is
    500 with the error's message and the count query is not issued. *)
Theorem list_reads_at_most_twice (db : Engine) (options : Options)
  (router : Route -> Request -> World -> Response * World)
  (req : Request) (w : World) (out : Response * World) :
  In router (routers db options) ->
  out = router GET_items req w ->
  store (snd out) = store w
  /\ (trace (snd out)
      = trace w
        ++ [Issued (SelectPage (limit_of req) ((page_of req - 1) * limit_of req))]
      \/ trace (snd out)
         = trace w
           ++ [Issued (SelectPage (limit_of req) ((page_of req - 1) * limit_of req));
               Issued SelectCount])
  /\ (forall err fs,
        faults w = Some err :: fs ->
        fst out = status_json 500 (JError (message err))
        /\ trace (snd out)
           = trace w
             ++ [Issued (SelectPage (limit_of req)
                           ((page_of req - 1) * limit_of req))]).
Proof.
  intros Hr ->.
  assert (E : router GET_items req w = CallbackRouter.router_get db req w).
  { destruct (in_routers _ _ _ Hr) as [-> | ->];
      [apply list_handlers_agree|reflexivity]. }
  rewrite E. clear E Hr router.
  split; [apply router_get_cases|].
  unfold CallbackRouter.router_get. fold (page_of req) (limit_of req).
  set (q := SelectPage (limit_of req) ((page_of req - 1) * limit_of req)).
  split.
  - pose proof (db_exec_trace db q w) as Ht.
    destruct (db_exec db q w) as [[err|rs] w1]; cbn [snd] in Ht;
      [left; exact Ht|].
    pose proof (db_exec_trace db SelectCount w1) as Ht2.
    destruct (db_exec db SelectCount w1) as [[err|c] w2]; cbn [snd] in *;
      right; rewrite Ht2, Ht, <- app_assoc; reflexivity.
  - intros err fs Hf. rewrite (db_exec_fault db q w err fs Hf).
    split; reflexivity.
Qed.

Lemma list_reads_at_most_twice_witness :
  fst (CallbackRouter.itemsRouter decimal_engine retry_options GET_items
         (list_request None None)
         (mkWorld (store three_items) [Some busy_error] []))
  = status_json 500 (JError "SQLITE_BUSY: database is locked")
  /\ trace (snd (CallbackRouter.itemsRouter decimal_engine retry_options
                   GET_items (list_request None None)
                   (mkWorld (store three_items) [Some busy_error] [])))
     = [Issued (SelectPage 10 0)].
Proof.
  destruct (list_reads_at_most_twice decimal_engine retry_options _
              (list_request None None)
              (mkWorld (store three_items) [Some busy_error] []) _
              (or_intror (or_introl eq_refl)) eq_refl) as [_ [_ H]].
  exact (H busy_error [] eq_refl).
Defined.

(** X3.  A List whose [page] and [limit] are each absent, not a number or
    0 is served as page 1 with limit 10: without a storage failure the
    answer is 200 with the first ten rows of the table, [totalItems] the
    number of rows, [totalPages] the ceiling of a tenth of it,
    [currentPage] 1 and [pageSize] 10.  Whatever the query, neither the
    page nor the limit the handlers compute is 0, so the division for
    [totalPages] is never by zero. *)
Theorem list_defaults (db : Engine) (options : Options)
  (router : Route -> Request -> World -> Response * World)
  (req : Request) (w : World) :
  In router (routers db options) ->
  (page_of req <> 0 /\ limit_of req <> 0)
  /\ (Js.parseInt (query_page req) = None \/ Js.parseInt (query_page req) = Some 0 ->
      Js.parseInt (query_limit req) = None \/ Js.parseInt (query_limit req) = Some 0 ->
      fault_free w ->
      fst (router GET_items req w)
      = json (JPage (firstn 10 (rows (store w)))
                (mkPagination (Z.of_nat (List.length (rows (store w))))
                   (Js.ceil_div (Z.of_nat (List.length (rows (store w)))) 10)
                   1 10))).
Proof.
  intros Hr. split.
  - unfold page_of, limit_of, Js.num_or.
    destruct (Js.parseInt (query_page req)) as [[|p|p]|];
      destruct (Js.parseInt (query_limit req)) as [[|l|l]|]; split; discriminate.
  - intros Hp Hl Hff.
    assert (E : router GET_items req w = CallbackRouter.router_get db req w).
    { destruct (in_routers _ _ _ Hr) as [-> | ->];
        [apply list_handlers_agree|reflexivity]. }
    rewrite E.
    pose proof (callback_no_fault_no_500 db options GET_items req w Hff) as H500.
    cbn [CallbackRouter.itemsRouter] in H500.
    destruct (router_get_cases db req w) as [_ [_ [H|H]]]; [contradiction|].
    rewrite H.
    assert (Hpage : page_of req = 1)
      by (unfold page_of; destruct Hp as [-> | ->]; reflexivity).
    assert (Hlimit : limit_of req = 10)
      by (unfold limit_of; destruct Hl as [-> | ->]; reflexivity).
    rewrite Hpage, Hlimit. reflexivity.
Qed.

Lemma list_defaults_witness :
  fst (PromiseRouter.itemsRouter decimal_engine no_options GET_items
         (list_request (Some "0") (Some "ten")) three_items)
  = json (JPage (rows (store three_items)) (mkPagination 3 1 1 10)).
Proof.
  destruct (list_defaults decimal_engine no_options _
              (list_request (Some "0") (Some "ten")) three_items
              (or_introl eq_refl)) as [_ H].
  exact (H (or_intror eq_refl) (or_introl eq_refl) eq_refl).
Defined.

Section Pages.

Variable db : Engine.
Variable options : Options.




End Pages.





(* ===================================================================== *)
(** * Writes                                                             *)
(* ===================================================================== *)

Section MoreWrites.

Variable db : Engine.
Variable options : Options.

Lemma next_id_above_seq (d : Db) : seq d < next_id d.
Proof. unfold next_id. lia. Qed.

(** A Create with a name, in either router, when it is not answered 500. *)
Lemma create_cases (handler : Request -> World -> Response * World)
  (req : Request) (w : World) nm :
  In handler (create_handlers db options) ->
  body_name req = Js.Str nm -> nm <> "" ->
  status (fst (handler req w)) <> 500 ->
  rows (store (snd (handler req w)))
  = rows (store w)
    ++ [mkItem (next_id (store w)) nm (bind (body_description req))]
  /\ seq (store (snd (handler req w))) = next_id (store w).
Proof.
  intros [<-|[<-|[]]] Hname Hnm H500.
  - destruct (createNewItem_cases db options req w nm Hname Hnm)
      as [H|[_ [Hrows Hseq]]]; [contradiction|]. split; assumption.
  - destruct (router_post_cases db options req w nm Hname Hnm)
      as [H|[_ [Hrows Hseq]]]; [contradiction|]. split; assumption.
Qed.

(** A Delete, in either router, when it is not answered 500. *)
Lemma delete_cases (handler : Request -> World -> Response * World)
  (req : Request) (w : World) :
  In handler (delete_handlers db options) ->
  status (fst (handler req w)) <> 500 ->
  rows (store (snd (handler req w)))
  = filter (fun i => negb (id_is db (PText (params_id req)) i)) (rows (store w))
  /\ seq (store (snd (handler req w))) = seq (store w).
Proof.
  intros [<-|[<-|[]]] H500.
  - destruct (deleteItem_cases db options req w) as [H|[_ [Hrows Hseq]]];
      [contradiction|]. split; assumption.
  - destruct (router_delete_cases db options req w) as [H|H]; [contradiction|].
    destruct (find _ (rows (store w))) eqn:Hfind.
    + destruct H as [_ [Hrows Hseq]]. split; assumption.
    + destruct H as [_ ->]. split; [|reflexivity].
      symmetry. apply filter_unselected, Hfind.
Qed.

Lemma map_update_twice (sel : Item -> bool) nm ds (rs : list Item) :
  (forall i, sel (set_fields nm ds i) = sel i) ->
  map (fun i => if sel i then set_fields nm ds i else i)
      (map (fun i => if sel i then set_fields nm ds i else i) rs)
  = map (fun i => if sel i then set_fields nm ds i else i) rs.
Proof.
  intros Hsel. rewrite map_map. apply map_ext. intros i.
  destruct (sel i) eqn:E; [rewrite Hsel, E|rewrite E]; reflexivity.
Qed.

(** An Update, in either router, without a storage failure, as a function
    of the store. *)
Lemma update_fault_free (handler : Request -> World -> Response * World)
  (req : Request) (w : World) nm :
  In handler (update_handlers db options) ->
  body_name req = Js.Str nm -> nm <> "" -> fault_free w ->
  match find (id_is db (PText (params_id req))) (rows (store w)) with
  | None =>
      fst (handler req w) = status_json 404 (JError "Item not found")
      /\ store (snd (handler req w)) = store w
  | Some i =>
      fst (handler req w)
      = json (JRow (Some (set_fields nm (bind (body_description req)) i)))
      /\ rows (store (snd (handler req w)))
         = map (fun i => if id_is db (PText (params_id req)) i
                         then set_fields nm (bind (body_description req)) i
                         else i)
               (rows (store w))
      /\ seq (store (snd (handler req w))) = seq (store w)
  end.
Proof.
  intros [<-|[<-|[]]] Hname Hnm Hff.
  - pose proof (promise_no_fault_no_500 db options PUT_item req w Hff) as H500.
    destruct (updateItem_cases db options req w nm Hname Hnm) as [H|H];
      [contradiction|exact H].
  - pose proof (callback_no_fault_no_500 db options PUT_item req w Hff) as H500.
    destruct (router_put_cases db options req w nm Hname Hnm) as [H|H];
      [contradiction|exact H].
Qed.

Lemma update_keeps_fault_free (handler : Request -> World -> Response * World)
  (req : Request) (w : World) :
  In handler (update_handlers db options) -> fault_free w ->
  fault_free (snd (handler req w)).
Proof.
  intros [<-|[<-|[]]] Hff.
  - exact (proj1 (routers_keep_fault_free db options PUT_item req w Hff)).
  - exact (proj2 (routers_keep_fault_free db options PUT_item req w Hff)).
Qed.

(** A Delete of the callback router that ends on an error has run no
    statement on the store. *)
Lemma router_delete_failed (req : Request) (w : World) :
  status (fst (CallbackRouter.router_delete db options req w)) <> 200 ->
  store (snd (CallbackRouter.router_delete db options req w)) = store w.
Proof.
  unfold CallbackRouter.router_delete. rewrite performDelete_retry.
  pose proof (retryOperation_cases db options (Delete (PText (params_id req)))
                (CallbackRouter.maxRetries options) w) as Hc.
  destruct (PromiseRouter.retryOperation options _ _ w) as [[err|this] w1];
    unfold after_delete; [intros _; exact Hc|].
  apply exec_delete in Hc as [Hch [Hrows Hseq]].
  destruct (changes this =? 0) eqn:E; [|intros H; exfalso; apply H; reflexivity].
  intros _. apply Z.eqb_eq in E. rewrite Hch in E. apply count_zero in E.
  cbn [snd]. apply db_eq; [|exact Hseq]. rewrite Hrows.
  apply filter_unselected, E.
Qed.

End MoreWrites.

(** X6.  A Create with a non-empty name that is not answered 500 adds
    exactly one row, at the end of the table, and changes no other: the new
    row has the name and the description of the request (NULL for a
    description left out) and an id greater than every id in the table and
    than the AUTOINCREMENT mark, which becomes that id.  This holds in both
    routers, also when the promise router's response carries no item. *)
Theorem create_adds_one_row (db : Engine) (options : Options)
  (handler : Request -> World -> Response * World)
  (req : Request) (w : World) (nm : string) (out : Response * World) :
  In handler (create_handlers db options) ->
  body_name req = Js.Str nm -> nm <> "" ->
  out = handler req w ->
  status (fst out) <> 500 ->
  exists id,
    rows (store (snd out))
    = rows (store w) ++ [mkItem id nm (bind (body_description req))]
    /\ seq (store (snd out)) = id
    /\ seq (store w) < id
    /\ (forall i, In i (rows (store w)) -> item_id i < id).
Proof.
  intros Hh Hname Hnm -> H500.
  destruct (create_cases db options handler req w nm Hh Hname Hnm H500)
    as [Hrows Hseq].
  exists (next_id (store w)). split; [exact Hrows|]. split; [exact Hseq|].
  split; [apply next_id_above_seq|]. intros i Hi. apply next_id_fresh, Hi.
Qed.

Lemma create_adds_one_row_witness :
  exists id,
    rows (store (snd (PromiseRouter.createNewItem decimal_engine no_options
                        (body_request "" (Js.Str "d") Js.Null) three_items)))
    = rows (store three_items) ++ [mkItem id "d" None]
    /\ seq (store (snd (PromiseRouter.createNewItem decimal_engine no_options
                          (body_request "" (Js.Str "d") Js.Null) three_items)))
       = id
    /\ seq (store three_items) < id
    /\ (forall i, In i (rows (store three_items)) -> item_id i < id).
Proof.
  exact (create_adds_one_row decimal_engine no_options _
           (body_request "" (Js.Str "d") Js.Null) three_items "d" _
           (or_introl eq_refl) eq_refl ltac:(discriminate) eq_refl
           ltac:(vm_compute; discriminate)).
Defined.

(** X7.  Create then GetById.  In the callback router for every
    description, and in the promise router when the description is a text:
    a Create with a non-empty name that is not answered 500 is answered 200
    with the new item, whose name and description are the request's; and a
    GetById that follows on the store the Create left, for any text the
    engine reads as the new id, returns the same item unless it is answered
    500. *)
Theorem create_then_get (db : Engine) (options : Options)
  (router : Route -> Request -> World -> Response * World)
  (req : Request) (w w' : World) (nm k : string) :
  router = CallbackRouter.itemsRouter db options
    \/ (router = PromiseRouter.itemsRouter db options
        /\ exists ds, body_description req = Js.Str ds) ->
  body_name req = Js.Str nm -> nm <> "" ->
  status (fst (router POST_item req w)) <> 500 ->
  store w' = store (snd (router POST_item req w)) ->
  (forall i, fst (router POST_item req w) = json (JRow (Some i)) ->
             to_integer db k = Some (item_id i)) ->
  status (fst (router GET_item (id_request k) w')) <> 500 ->
  exists i,
    item_name i = nm
    /\ item_description i = bind (body_description req)
    /\ fst (router POST_item req w) = json (JRow (Some i))
    /\ fst (router GET_item (id_request k) w') = json (JRow (Some i)).
Proof.
  intros Hr Hname Hnm Hpost Hw' Hk Hget.
  assert (Hcreated :
            fst (router POST_item req w)
            = json (JRow (Some (mkItem (next_id (store w)) nm
                                  (bind (body_description req)))))
            /\ rows (store w')
               = rows (store w)
                 ++ [mkItem (next_id (store w)) nm (bind (body_description req))]).
  { rewrite Hw'. destruct Hr as [-> | [-> [ds Hds]]].
    - destruct (router_post_cases db options req w nm Hname Hnm)
        as [H|[Hr [Hrows _]]]; [contradiction|]. split; assumption.
    - destruct (createNewItem_cases db options req w nm Hname Hnm)
        as [H|[Hr [Hrows _]]]; [contradiction|].
      rewrite Hds in Hr, Hrows |- *. cbn [bind] in Hr, Hrows |- *.
      split; assumption. }
  destruct Hcreated as [Hr1 Hrows].
  specialize (Hk _ Hr1). cbn [item_id] in Hk.
  eexists. split; [|split; [|split; [exact Hr1|]]]; [reflexivity|reflexivity|].
  assert (E : router GET_item (id_request k) w'
              = CallbackRouter.router_get_id db (id_request k) w').
  { destruct Hr as [-> | [-> _]]; [reflexivity|apply get_handlers_agree]. }
  rewrite E in Hget |- *.
  destruct (router_get_id_cases db (id_request k) w') as [_ [H|H]];
    [contradiction|].
  rewrite H, Hrows. cbn [params_id id_request].
  rewrite (find_text_id db k _ _ Hk), find_inserted. reflexivity.
Qed.

Lemma create_then_get_witness :
  exists i,
    item_name i = "d"
    /\ item_description i = None
    /\ fst (CallbackRouter.itemsRouter decimal_engine no_options POST_item
              (body_request "" (Js.Str "d") Js.Undefined) three_items)
       = json (JRow (Some i))
    /\ fst (CallbackRouter.itemsRouter decimal_engine no_options GET_item
              (id_request "4")
              (world_of [mkItem 1 "a" None; mkItem 2 "b" (Some "two");
                         mkItem 3 "c" None; mkItem 4 "d" None] 4))
       = json (JRow (Some i)).
Proof.
  apply (create_then_get decimal_engine no_options _
           (body_request "" (Js.Str "d") Js.Undefined) three_items).
  - left; reflexivity.
  - reflexivity.
  - discriminate.
  - vm_compute; discriminate.
  - reflexivity.
  - intros i Hi. vm_compute in Hi. injection Hi as <-. reflexivity.
  - vm_compute; discriminate.
Defined.

(** X8.  A Delete that is not answered 500 leaves, in either router, the
    table without the rows its id selected and with every other row, in
    the same order, and the AUTOINCREMENT mark as it was.  No row is then
    selected by that id, and a GetById on it that follows, in either
    router, is answered 404 unless it is answered 500. *)
Theorem delete_removes (db : Engine) (options : Options)
  (handler : Request -> World -> Response * World)
  (req : Request) (w : World) (out : Response * World) :
  In handler (delete_handlers db options) ->
  out = handler req w ->
  status (fst out) <> 500 ->
  rows (store (snd out))
  = filter (fun i => negb (id_is db (PText (params_id req)) i)) (rows (store w))
  /\ seq (store (snd out)) = seq (store w)
  /\ find (id_is db (PText (params_id req))) (rows (store (snd out))) = None
  /\ (forall router w',
        In router (routers db options) ->
        store w' = store (snd out) ->
        status (fst (router GET_item req w')) <> 500 ->
        fst (router GET_item req w')
        = status_json 404 (JError "Item not found")).
Proof.
  intros Hh -> H500.
  destruct (delete_cases db options handler req w Hh H500) as [Hrows Hseq].
  assert (Hnone : find (id_is db (PText (params_id req)))
                       (rows (store (snd (handler req w)))) = None)
    by (rewrite Hrows; apply find_deleted).
  split; [exact Hrows|]. split; [exact Hseq|]. split; [exact Hnone|].
  intros router w' Hr Hw' Hget.
  assert (E : router GET_item req w' = CallbackRouter.router_get_id db req w').
  { destruct (in_routers _ _ _ Hr) as [-> | ->];
      [apply get_handlers_agree|reflexivity]. }
  rewrite E in Hget |- *.
  destruct (router_get_id_cases db req w') as [_ [H|H]]; [contradiction|].
  rewrite H, Hw', Hnone. reflexivity.
Qed.

Lemma delete_removes_witness :
  rows (store (snd (PromiseRouter.deleteItem decimal_engine no_options
                      (id_request "2") three_items)))
  = [mkItem 1 "a" None; mkItem 3 "c" None]
  /\ fst (CallbackRouter.itemsRouter decimal_engine no_options GET_item
            (id_request "2")
            (snd (PromiseRouter.deleteItem decimal_engine no_options
                    (id_request "2") three_items)))
     = status_json 404 (JError "Item not found").
Proof.
  destruct (delete_removes decimal_engine no_options _ (id_request "2")
              three_items _ (or_introl eq_refl) eq_refl
              ltac:(vm_compute; discriminate)) as [Hrows [_ [_ Hget]]].
  split; [exact Hrows|].
  exact (Hget _ _ (or_intror (or_introl eq_refl)) eq_refl
           ltac:(vm_compute; discriminate)).
Defined.

(** X9.  Update is idempotent.  Without a storage failure, sending the
    same Update again right after the first, in either router, is answered
    as the first was and leaves the store the first left. *)
Theorem update_twice (db : Engine) (options : Options)
  (handler : Request -> World -> Response * World)
  (req : Request) (w : World) :
  In handler (update_handlers db options) ->
  fault_free w ->
  fst (handler req (snd (handler req w))) = fst (handler req w)
  /\ store (snd (handler req (snd (handler req w))))
     = store (snd (handler req w)).
Proof.
  intros Hh Hff.
  pose proof (update_keeps_fault_free db options handler req w Hh Hff) as Hff1.
  destruct (negb (Js.truthy (body_name req))) eqn:Hname.
  - assert (E : forall w0, handler req w0
                           = (status_json 400 (JError "Name is required"), w0)).
    { intros w0. destruct Hh as [<-|[<-|[]]];
        unfold PromiseRouter.updateItem, CallbackRouter.router_put;
        rewrite Hname; reflexivity. }
    rewrite !E. split; reflexivity.
  - apply falsy_name in Hname as [nm [Hname Hnm]].
    pose proof (update_fault_free db options handler req w nm Hh Hname Hnm Hff)
      as H1.
    pose proof (update_fault_free db options handler req _ nm Hh Hname Hnm Hff1)
      as H2.
    destruct (find _ (rows (store w))) as [i|] eqn:Hfind.
    + destruct H1 as [Hr1 [Hrows1 Hseq1]].
      rewrite Hrows1, find_updated, Hfind in H2. cbn [option_map] in H2.
      destruct H2 as [Hr2 [Hrows2 Hseq2]]. split; [rewrite Hr1, Hr2; reflexivity|].
      apply db_eq; [|exact Hseq2].
      rewrite Hrows2, Hrows1. apply map_update_twice. reflexivity.
    + destruct H1 as [Hr1 Hst1]. rewrite Hst1, Hfind in H2.
      destruct H2 as [Hr2 Hst2]. rewrite Hr1, Hr2, Hst2, Hst1. split; reflexivity.
Qed.

Lemma update_twice_witness :
  fst (CallbackRouter.router_put decimal_engine no_options
         (body_request "2" (Js.Str "B") Js.Undefined)
         (snd (CallbackRouter.router_put decimal_engine no_options
                 (body_request "2" (Js.Str "B") Js.Undefined) three_items)))
  = json (JRow (Some (mkItem 2 "B" None)))
  /\ store (snd (CallbackRouter.router_put decimal_engine no_options
                   (body_request "2" (Js.Str "B") Js.Undefined)
                   (snd (CallbackRouter.router_put decimal_engine no_options
                           (body_request "2" (Js.Str "B") Js.Undefined)
                           three_items))))
     = mkDb [mkItem 1 "a" None; mkItem 2 "B" None; mkItem 3 "c" None] 3.
Proof.
  exact (update_twice decimal_engine no_options _
           (body_request "2" (Js.Str "B") Js.Undefined) three_items
           (or_intror (or_introl eq_refl)) eq_refl).
Defined.

(** X10.  In the callback router a Delete that is not answered 200 has
    deleted nothing: on a 404 and on a 500, whatever failed and however
    often it was retried, the store is as it was. *)
Theorem failed_delete_deletes_nothing (db : Engine) (options : Options)
  (req : Request) (w : World) (out : Response * World) :
  out = CallbackRouter.router_delete db options req w ->
  status (fst out) <> 200 ->
  store (snd out) = store w.
Proof. intros ->. apply router_delete_failed. Qed.

Lemma failed_delete_deletes_nothing_witness :
  store (snd (CallbackRouter.router_delete decimal_engine retry_options
                (id_request "2")
                (mkWorld (store three_items)
                   [Some busy_error; Some busy_error; Some busy_error;
                    Some busy_error] [])))
  = store three_items.
Proof.
  apply (failed_delete_deletes_nothing decimal_engine retry_options
           (id_request "2")
           (mkWorld (store three_items)
              [Some busy_error; Some busy_error; Some busy_error;
               Some busy_error] []) _ eq_refl).
  vm_compute. discriminate.
Defined.

(* ===================================================================== *)
(** * Ids over sequences of requests                                     *)
(* ===================================================================== *)

Section Ids.

Variable db : Engine.
Variable options : Options.

(** A statement keeps every id at or below the AUTOINCREMENT mark and never
    lowers the mark. *)
Lemma exec_ids_bounded (s : Stmt) (d : Db) r (d' : Db) :
  ids_bounded d -> exec db s d = inr (r, d') ->
  ids_bounded d' /\ seq d <= seq d'.
Proof.
  intros H. destruct s as [l o| |p|n ds|[nm|] ds|[nm|] ds p|p]; cbn [exec];
    intros E; try (injection E as _ <-; split; [exact H|lia]); try discriminate.
  - injection E as _ <-. pose proof (next_id_above_seq d) as Hn.
    split; [|cbn [seq]; lia].
    intros i Hi. cbn [rows seq] in *. apply in_app_or in Hi as [Hi|[<-|[]]].
    + specialize (H i Hi). lia.
    + cbn [item_id]. lia.
  - injection E as _ <-. split; [|cbn [seq]; lia].
    intros i Hi. cbn [rows seq] in *. apply in_map_iff in Hi as [j [<- Hj]].
    specialize (H j Hj). destruct (id_is db p j); exact H.
  - destruct (existsb (id_is db p) (rows d)); [discriminate|].
    injection E as _ <-. split; [exact H|lia].
  - injection E as _ <-. split; [|cbn [seq]; lia].
    intros i Hi. cbn [rows seq] in *. apply filter_In in Hi as [Hi _].
    exact (H i Hi).
Qed.

(** What the table keeps, relative to a mark [k]: ascending ids, every id
    at or below the AUTOINCREMENT mark, and the mark at least [k]. *)
Lemma db_exec_keeps_ids (k : Z) (s : Stmt) (w : World) :
  ascending (rows (store w)) /\ ids_bounded (store w) /\ k <= seq (store w) ->
  ascending (rows (store (snd (db_exec db s w))))
  /\ ids_bounded (store (snd (db_exec db s w)))
  /\ k <= seq (store (snd (db_exec db s w))).
Proof.
  intros [Ha [Hb Hk]]. split; [apply db_exec_ascending, Ha|].
  pose proof (db_exec_cases db s w) as Hc.
  destruct (db_exec db s w) as [[err|r] w1]; cbn [snd].
  - rewrite Hc. split; assumption.
  - destruct (exec_ids_bounded s _ r _ Hb Hc) as [Hb' Hs]. split; [exact Hb'|lia].
Qed.

Lemma serve_keeps (P : World -> Prop)
  (router : Route -> Request -> World -> Response * World) :
  (forall route req w, P w -> P (snd (router route req w))) ->
  forall reqs w, P w -> P (snd (serve router reqs w)).
Proof.
  intros Hstep. induction reqs as [|[route req] reqs IH]; intros w H;
    [exact H|].
  cbn [serve]. specialize (Hstep route req w H).
  destruct (router route req w) as [r w1]. cbn [snd] in Hstep.
  specialize (IH w1 Hstep). destruct (serve router reqs w1) as [rs w2].
  exact IH.
Qed.

Lemma routers_keep_ids (k : Z)
  (router : Route -> Request -> World -> Response * World)
  (reqs : list (Route * Request)) (w : World) :
  In router (routers db options) ->
  ascending (rows (store w)) /\ ids_bounded (store w) /\ k <= seq (store w) ->
  ascending (rows (store (snd (serve router reqs w))))
  /\ ids_bounded (store (snd (serve router reqs w)))
  /\ k <= seq (store (snd (serve router reqs w))).
Proof.
  intros Hr.
  apply (serve_keeps
           (fun w => ascending (rows (store w)) /\ ids_bounded (store w)
                     /\ k <= seq (store w))).
  intros route req w0 H0.
  destruct (in_routers _ _ _ Hr) as [-> | ->].
  - apply (promise_router_inv db options
             (fun w => ascending (rows (store w)) /\ ids_bounded (store w)
                       /\ k <= seq (store w)));
      [apply db_exec_keeps_ids|intros ms w1 H1; exact H1|exact H0].
  - apply (callback_router_inv db options
             (fun w => ascending (rows (store w)) /\ ids_bounded (store w)
                       /\ k <= seq (store w)));
      [apply db_exec_keeps_ids|intros ms w1 H1; exact H1|exact H0].
Qed.

Lemma ascending_NoDup (rs : list Item) :
  ascending rs -> NoDup (map item_id rs).
Proof.
  unfold ascending. induction rs as [|r rs IH]; intros H; simpl;
    [constructor|].
  inversion H as [|? ? Hs Hf]; subst. constructor; [|apply IH, Hs].
  intros Hin. apply in_map_iff in Hin as [j [Hj Hin]].
  rewrite Forall_forall in Hf. specialize (Hf j Hin). lia.
Qed.

End Ids.

(** X11.  From a table whose ids are ascending and at most the
    AUTOINCREMENT mark (the empty table is one), every sequence of
    requests, to either router and whatever storage failures occur, leaves
    a table whose ids are ascending, hence all different, and at most the
    mark, and never lowers the mark. *)
Theorem ids_stay_unique (db : Engine) (options : Options)
  (router : Route -> Request -> World -> Response * World)
  (reqs : list (Route * Request)) (w : World) :
  In router (routers db options) ->
  ascending (rows (store w)) -> ids_bounded (store w) ->
  ascending (rows (store (snd (serve router reqs w))))
  /\ NoDup (map item_id (rows (store (snd (serve router reqs w)))))
  /\ ids_bounded (store (snd (serve router reqs w)))
  /\ seq (store w) <= seq (store (snd (serve router reqs w))).
Proof.
  intros Hr Ha Hb.
  destruct (routers_keep_ids db options (seq (store w)) router reqs w Hr
              (conj Ha (conj Hb (Z.le_refl _)))) as [Ha' [Hb' Hs]].
  split; [exact Ha'|]. split; [apply ascending_NoDup, Ha'|].
  split; assumption.
Qed.

Lemma ids_stay_unique_witness :
  ascending (rows (store (snd (serve
     (PromiseRouter.itemsRouter decimal_engine retry_options) scenario
     (mkWorld (mkDb [] 0) busy_writes [])))))
  /\ NoDup (map item_id (rows (store (snd (serve
       (PromiseRouter.itemsRouter decimal_engine retry_options) scenario
       (mkWorld (mkDb [] 0) busy_writes []))))))
  /\ ids_bounded (store (snd (serve
       (PromiseRouter.itemsRouter decimal_engine retry_options) scenario
       (mkWorld (mkDb [] 0) busy_writes []))))
  /\ seq (mkDb [] 0) <= seq (store (snd (serve
       (PromiseRouter.itemsRouter decimal_engine retry_options) scenario
       (mkWorld (mkDb [] 0) busy_writes [])))).
Proof.
  apply (ids_stay_unique decimal_engine retry_options _ scenario
           (mkWorld (mkDb [] 0) busy_writes []) (or_introl eq_refl)).
  - constructor.
  - intros i [].
Defined.

(** X12.  Ids are not reused.  From a table whose ids are ascending and
    at most the AUTOINCREMENT mark, and after any sequence of requests to
    either router (Deletes included, whatever storage failures occur), a
    Create with a non-empty name that is not answered 500 stores its row
    under an id greater than every id the table held at the start and than
    every id it holds now. *)
Theorem ids_never_reused (db : Engine) (options : Options)
  (router : Route -> Request -> World -> Response * World)
  (reqs : list (Route * Request)) (w : World) (req : Request) (nm : string) :
  In router (routers db options) ->
  ascending (rows (store w)) -> ids_bounded (store w) ->
  body_name req = Js.Str nm -> nm <> "" ->
  status (fst (router POST_item req (snd (serve router reqs w)))) <> 500 ->
  exists id,
    rows (store (snd (router POST_item req (snd (serve router reqs w)))))
    = rows (store (snd (serve router reqs w)))
      ++ [mkItem id nm (bind (body_description req))]
    /\ (forall i, In i (rows (store w)) -> item_id i < id)
    /\ (forall i, In i (rows (store (snd (serve router reqs w)))) ->
                  item_id i < id).
Proof.
  intros Hr Ha Hb Hname Hnm H500.
  destruct (routers_keep_ids db options (seq (store w)) router reqs w Hr
              (conj Ha (conj Hb (Z.le_refl _)))) as [_ [_ Hs]].
  set (w1 := snd (serve router reqs w)) in *.
  assert (Hh : In (router POST_item) (create_handlers db options)).
  { destruct (in_routers _ _ _ Hr) as [-> | ->];
      [left|right; left]; reflexivity. }
  destruct (create_cases db options (router POST_item) req w1 nm Hh Hname Hnm H500)
    as [Hrows _].
  exists (next_id (store w1)). split; [exact Hrows|]. split.
  - intros i Hi. specialize (Hb i Hi).
    pose proof (next_id_above_seq (store w1)). lia.
  - intros i Hi. apply next_id_fresh, Hi.
Qed.

Lemma ids_never_reused_witness :
  exists id,
    rows (store (snd (CallbackRouter.itemsRouter decimal_engine no_options
                        POST_item (body_request "" (Js.Str "d") Js.Undefined)
                        (snd (serve (CallbackRouter.itemsRouter decimal_engine
                                       no_options)
                                [(DELETE_item, id_request "3")] three_items)))))
    = rows (store (snd (serve (CallbackRouter.itemsRouter decimal_engine
                                 no_options)
                          [(DELETE_item, id_request "3")] three_items)))
      ++ [mkItem id "d" None]
    /\ (forall i, In i (rows (store three_items)) -> item_id i < id)
    /\ (forall i,
          In i (rows (store (snd (serve (CallbackRouter.itemsRouter
                                           decimal_engine no_options)
                                    [(DELETE_item, id_request "3")]
                                    three_items)))) ->
          item_id i < id).
Proof.
  apply (ids_never_reused decimal_engine no_options _
           [(DELETE_item, id_request "3")] three_items
           (body_request "" (Js.Str "d") Js.Undefined) "d"
           (or_intror (or_introl eq_refl))).
  - repeat constructor.
  - intros i [<-|[<-|[<-|[]]]]; vm_compute; discriminate.
  - reflexivity.
  - discriminate.
  - vm_compute. discriminate.
Defined.

(* ===================================================================== *)
(** * What a retried write looks like from outside                       *)
(* ===================================================================== *)

Section Attempts.

Variable db : Engine.
Variable options : Options.

Lemma attempts_trace_S (n : nat) (s : Stmt) (ms : Z) :
  attempts_trace (S n) s ms = Issued s :: Waited ms :: attempts_trace n s ms.
Proof. reflexivity. Qed.

(** The trace of a write under the retry policy: some attempts, each
    followed by a wait of [retryDelay], then a last attempt. *)
Lemma retry_write_trace (s : Stmt) (retries : Z) :
  forall w,
  exists n,
    Z.of_nat n <= Z.max 0 retries
    /\ (PromiseRouter.shouldRetry options = false -> n = O)
    /\ trace (snd (PromiseRouter.retryOperation options (db_exec db s) retries w))
       = trace w ++ attempts_trace n s (PromiseRouter.retryDelay options).
Proof.
  induction retries as [retries IH] using retries_ind. intros w.
  rewrite retryOperation_unfold.
  pose proof (db_exec_trace db s w) as Ht.
  destruct (db_exec db s w) as [[err|r] w1]; cbn [snd] in Ht.
  - destruct (PromiseRouter.shouldRetry options && busy err && (retries >? 0)) eqn:E.
    + apply andb_prop in E as [E1 E]. apply andb_prop in E1 as [E1 _].
      apply Z.gtb_lt in E.
      destruct (IH (retries - 1) E eq_refl
                  (wait (PromiseRouter.retryDelay options) w1)) as [n [Hn [_ Htr]]].
      exists (S n). split; [lia|]. split; [intros H; congruence|].
      rewrite Htr. unfold wait, log. cbn [trace]. rewrite Ht, attempts_trace_S.
      rewrite <- !app_assoc. reflexivity.
    + exists O. split; [lia|]. split; [reflexivity|exact Ht].
  - exists O. split; [lia|]. split; [reflexivity|exact Ht].
Qed.

End Attempts.

(** X13.  The write of a request, seen from outside: in the promise
    router ([retryOperation] around [dbRun]) as in the callback router's
    Delete, the trace grows by [n] attempts at the statement, each followed
    by a wait of [retryDelay] milliseconds, and one last attempt, with
    [n <= maxRetries]; [n] is 0 when retry is disabled.  So there is one
    wait fewer than attempts, no wait after the last attempt, and a
    callback Delete issues nothing but its DELETE. *)
Theorem write_trace (db : Engine) (options : Options) (w : World) :
  (forall s,
      exists n,
        Z.of_nat n <= PromiseRouter.maxRetries options
        /\ (PromiseRouter.shouldRetry options = false -> n = O)
        /\ trace (snd (PromiseRouter.retryOperation options
                         (PromiseRouter.dbRun db s)
                         (PromiseRouter.maxRetries options) w))
           = trace w ++ attempts_trace n s (PromiseRouter.retryDelay options))
  /\ (forall req,
        exists n,
          Z.of_nat n <= CallbackRouter.maxRetries options
          /\ (CallbackRouter.shouldRetry options = false -> n = O)
          /\ trace (snd (CallbackRouter.router_delete db options req w))
             = trace w
               ++ attempts_trace n (Delete (PText (params_id req)))
                    (CallbackRouter.retryDelay options)).
Proof.
  pose proof (maxRetries_positive options) as Hpos.
  split.
  - intros s. rewrite retryOperation_dbRun.
    destruct (retry_write_trace db options s (PromiseRouter.maxRetries options) w)
      as [n [Hn [H0 Ht]]].
    exists n. split; [lia|]. split; [exact H0|].
    destruct (PromiseRouter.retryOperation options (db_exec db s) _ w) as [r w1].
    exact Ht.
  - intros req. unfold CallbackRouter.router_delete. rewrite performDelete_retry.
    destruct (retry_write_trace db options (Delete (PText (params_id req)))
                (CallbackRouter.maxRetries options) w) as [n [Hn [H0 Ht]]].
    exists n.
    change (CallbackRouter.maxRetries options)
      with (PromiseRouter.maxRetries options) in *.
    split; [lia|]. split; [exact H0|].
    destruct (PromiseRouter.retryOperation options _ _ w) as [[err|this] w1];
      unfold after_delete; [exact Ht|].
    destruct (changes this =? 0); exact Ht.
Qed.

(* ===================================================================== *)
(** * Status codes                                                       *)
(* ===================================================================== *)

Section Status.

Variable db : Engine.
Variable options : Options.




End Status.



(* ===================================================================== *)
(** * More on storage initialisation                                     *)
(* ===================================================================== *)


(** X16.  The callback version of [createDatabase] and the promise
    version leave the same database file, on every file they start from:
    the same journal mode and the same catalogue.  They differ only in the
    connection: the callback version leaves [synchronous], [temp_store] and
    [mmap_size] as the connection was opened. *)
Theorem createDatabase_versions_agree (disk : option Storage.File) :
  exists legacy current,
    LegacyStorage.createDatabase disk = Storage.Returned legacy
    /\ Storage.createDatabase disk = Storage.Returned current
    /\ Storage.file legacy = Storage.file current
    /\ Storage.on_error legacy = Storage.on_error current
    /\ (forall opened,
          Storage.open disk = inr opened ->
          Storage.settings legacy = Storage.settings opened)
    /\ Storage.settings current
       = Storage.mkSettings "NORMAL" "MEMORY" 30000000000.
Proof.
  rewrite createDatabase_file.
  unfold LegacyStorage.createDatabase, Storage.open.
  cbn [Storage.run Storage.file Storage.settings Storage.on_error
       Storage.tables Storage.journal_mode].
  unfold Storage.has_table. cbn [Storage.tables].
  destruct (existsb _ _); eexists _, _; repeat split;
    intros opened E; injection E as <-; reflexivity.
Qed.

(* ===================================================================== *)
(** * The service as [app.js] configures it                              *)
(* ===================================================================== *)

Section Budget.

Variable db : Engine.
Variable options : Options.

Lemma executions_attempts (n : nat) (s : Stmt) (ms : Z) :
  executions (attempts_trace n s ms)
  = (Z.of_nat n + 1) * (if is_write s then 1 else 0).
Proof.
  induction n as [|n IH].
  - unfold attempts_trace, executions. simpl. destruct (is_write s); reflexivity.
  - rewrite attempts_trace_S.
    change (Issued s :: Waited ms :: attempts_trace n s ms)
      with ([Issued s; Waited ms] ++ attempts_trace n s ms).
    rewrite executions_app, IH.
    assert (E : executions [Issued s; Waited ms] = if is_write s then 1 else 0)
      by (unfold executions; cbn [filter]; destruct (is_write s); reflexivity).
    rewrite E. destruct (is_write s); lia.
Qed.

(** How often a statement under the retry policy is issued. *)
Lemma retry_write_budget (s : Stmt) (w : World) :
  0 <= executions (trace (snd (PromiseRouter.retryOperation options
                                 (db_exec db s)
                                 (PromiseRouter.maxRetries options) w)))
       - executions (trace w)
    <= 1 + PromiseRouter.maxRetries options
  /\ (PromiseRouter.shouldRetry options = false ->
      executions (trace (snd (PromiseRouter.retryOperation options
                                (db_exec db s)
                                (PromiseRouter.maxRetries options) w)))
      - executions (trace w) <= 1).
Proof.
  pose proof (maxRetries_positive options) as Hpos.
  destruct (retry_write_trace db options s (PromiseRouter.maxRetries options) w)
    as [n [Hn [H0 Ht]]].
  rewrite Ht, executions_app, executions_attempts.
  split.
  - destruct (is_write s); lia.
  - intros H. rewrite (H0 H). destruct (is_write s); lia.
Qed.

Ltac count_executions :=
  repeat match goal with
         | |- context [PromiseRouter.retryOperation options (db_exec db ?s) ?n ?w] =>
             let H := fresh "H" in
             pose proof (retry_write_budget s w) as H;
             change (CallbackRouter.maxRetries options)
               with (PromiseRouter.maxRetries options) in *;
             destruct (PromiseRouter.retryOperation options (db_exec db s) _ w)
               as [[?err|?r] ?w]; cbn [snd] in H
         | |- context [db_exec db ?s ?w] =>
             let H := fresh "H" in
             pose proof (db_exec_executions db s w) as H;
             destruct (db_exec db s w) as [[?err|?r] ?w];
             cbn [snd is_write] in H
         | |- context [if ?b then _ else _] => destruct b
         | |- context [match ?o with Some _ => _ | None => _ end] => destruct o
         end.

Ltac close_budget :=
  repeat match goal with H : _ /\ _ |- _ => destruct H end;
  split;
  [ lia
  | let Hoff := fresh "Hoff" in
    intros Hoff;
    repeat match goal with
           | H : _ = false -> _ |- _ => specialize (H Hoff)
           end;
    lia ].

(** A request issues its write statement at most [1 + maxRetries] times,
    and at most once when retry is disabled; in the callback router. *)
Lemma callback_budget (route : Route) (req : Request) (w : World) :
  0 <= executions (trace (snd (CallbackRouter.itemsRouter db options route req w)))
       - executions (trace w)
    <= 1 + PromiseRouter.maxRetries options
  /\ (PromiseRouter.shouldRetry options = false ->
      executions (trace (snd (CallbackRouter.itemsRouter db options route req w)))
      - executions (trace w) <= 1).
Proof.
  pose proof (maxRetries_positive options) as Hpos.
  destruct route; cbn [CallbackRouter.itemsRouter];
    unfold CallbackRouter.router_get, CallbackRouter.router_get_id,
      CallbackRouter.router_post, CallbackRouter.router_put,
      CallbackRouter.router_delete;
    try (destruct (negb (Js.truthy (body_name req)));
         [cbn [snd]; split; [|intros _]; lia|]);
    rewrite ?performInsert_retry, ?performUpdate_retry, ?performDelete_retry;
    unfold after_insert, after_update, after_delete;
    count_executions; cbn [snd]; close_budget.
Qed.

(** The same in the promise router. *)
Lemma promise_budget (route : Route) (req : Request) (w : World) :
  0 <= executions (trace (snd (PromiseRouter.itemsRouter db options route req w)))
       - executions (trace w)
    <= 1 + PromiseRouter.maxRetries options
  /\ (PromiseRouter.shouldRetry options = false ->
      executions (trace (snd (PromiseRouter.itemsRouter db options route req w)))
      - executions (trace w) <= 1).
Proof.
  pose proof (maxRetries_positive options) as Hpos.
  destruct route; cbn [PromiseRouter.itemsRouter];
    unfold PromiseRouter.getAllItems, PromiseRouter.getItemById,
      PromiseRouter.createNewItem, PromiseRouter.updateItem,
      PromiseRouter.deleteItem;
    try (destruct (negb (Js.truthy (body_name req)));
         [cbn [snd]; split; [|intros _]; lia|]);
    unfold PromiseRouter.try_catch, PromiseRouter.and_then,
      PromiseRouter.dbAll, PromiseRouter.dbGet, PromiseRouter.resolve;
    rewrite ?retryOperation_dbRun;
    count_executions; cbn [snd]; close_budget.
Qed.

End Budget.

Lemma includes_retries (argv : list string) :
  App.retries argv = true <-> In "--retries" argv.
Proof.
  unfold App.retries. rewrite existsb_exists. split.
  - intros [x [Hin Hx]]. apply String.eqb_eq in Hx. subst x. exact Hin.
  - intros H. exists "--retries". split; [exact H|apply String.eqb_refl].
Qed.

(** X17.  In the service as [app.js] mounts the router, with either
    version of the router: retry is enabled exactly when the process was
    started with [--retries], the budget is 3 retries and the wait 100
    milliseconds; so every request issues its write statement at most 4
    times, and at most once when the process was started without
    [--retries]. *)
Theorem service_budget (db : Engine) (argv : list string)
  (router : Route -> Request -> World -> Response * World)
  (route : Route) (req : Request) (w : World) :
  In router (routers db (App.options argv)) ->
  (PromiseRouter.shouldRetry (App.options argv) = true <-> In "--retries" argv)
  /\ PromiseRouter.maxRetries (App.options argv) = 3
  /\ PromiseRouter.retryDelay (App.options argv) = 100
  /\ executions (trace (snd (router route req w))) - executions (trace w) <= 4
  /\ (~ In "--retries" argv ->
      executions (trace (snd (router route req w))) - executions (trace w) <= 1).
Proof.
  intros Hr.
  assert (Hs : PromiseRouter.shouldRetry (App.options argv) = App.retries argv).
  { unfold PromiseRouter.shouldRetry, App.options. cbn [retryOnBusy].
    destruct (App.retries argv); reflexivity. }
  split; [rewrite Hs; apply includes_retries|]. split; [reflexivity|].
  split; [reflexivity|].
  assert (Hoff : ~ In "--retries" argv ->
                 PromiseRouter.shouldRetry (App.options argv) = false).
  { intros Hn. rewrite Hs. destruct (App.retries argv) eqn:E;
      [|reflexivity]. exfalso. apply Hn, includes_retries. exact E. }
  destruct (in_routers _ _ _ Hr) as [-> | ->].
  - destruct (promise_budget db (App.options argv) route req w) as [[_ H4] H1].
    split; [exact H4|]. intros Hn. apply H1, Hoff, Hn.
  - destruct (callback_budget db (App.options argv) route req w) as [[_ H4] H1].
    split; [exact H4|]. intros Hn. apply H1, Hoff, Hn.
Qed.

Lemma service_budget_witness :
  executions (trace (snd (CallbackRouter.itemsRouter decimal_engine
                            (App.options ["node"; "server.js"]) DELETE_item
                            (id_request "2")
                            (mkWorld (store three_items)
                               [Some busy_error; Some busy_error] []))))
  - executions (trace (mkWorld (store three_items)
                         [Some busy_error; Some busy_error] []))
  <= 1.
Proof.
  destruct (service_budget decimal_engine ["node"; "server.js"] _ DELETE_item
              (id_request "2")
              (mkWorld (store three_items) [Some busy_error; Some busy_error] [])
              (or_intror (or_introl eq_refl))) as [_ [_ [_ [_ H]]]].
  apply H. intros [E|[E|[]]]; discriminate E.
Defined.

(* ===================================================================== *)
(** * The load-test script against the routers                           *)
(* ===================================================================== *)

Lemma show_read_back (z : Z) :
  0 < z -> to_integer LoadTest.decimal_text_engine (LoadTest.show z) = Some z.
Proof.
  intros Hz. unfold LoadTest.decimal_text_engine, LoadTest.show. cbn [to_integer].
  rewrite DecimalString.NilZero.isi.
  - cbn [option_map]. rewrite DecimalZ.of_to. reflexivity.
  - destruct z as [|p|p]; try lia. cbn. intros E. injection E as E.
    exact (DecimalPos.Unsigned.to_uint_nonnil p E).
  - destruct z as [|p|p]; try lia. discriminate.
Qed.

Section Load.

Variable db : Engine.
Variable options : Options.
Hypothesis reads_show : forall z, 0 < z -> to_integer db (LoadTest.show z) = Some z.

Lemma max_rowid_nonneg (rs : list Item) : 0 <= max_rowid rs.
Proof. induction rs as [|r rs IH]; simpl; lia. Qed.

Lemma next_id_positive (d : Db) : 0 < next_id d.
Proof. unfold next_id. pose proof (max_rowid_nonneg (rows d)). lia. Qed.

Lemma find_none_all {A} (f : A -> bool) (l : list A) :
  (forall y, In y l -> f y = false) -> find f l = None.
Proof.
  induction l as [|a l IH]; intros H; simpl; [reflexivity|].
  rewrite (H a) by (left; reflexivity). apply IH.
  intros y Hy. apply H. right. exact Hy.
Qed.

(** No row of the table is selected by a text read as the next id. *)
Lemma find_fresh (d : Db) (k : string) :
  to_integer db k = Some (next_id d) ->
  find (id_is db (PText k)) (rows d) = None.
Proof.
  intros Hk. rewrite (find_text_id db k _ _ Hk). apply find_none_all.
  intros y Hy. apply next_id_fresh in Hy. cbn. apply Z.eqb_neq. lia.
Qed.

(** What each request of the script gets without a storage failure, from
    either router. *)
Lemma post_fault_free (router : Route -> Request -> World -> Response * World)
  (req : Request) (w : World) nm ds :
  In router (routers db options) -> fault_free w ->
  body_name req = Js.Str nm -> nm <> "" -> body_description req = Js.Str ds ->
  router POST_item req w
  = (json (JRow (Some (mkItem (next_id (store w)) nm (Some ds)))),
     snd (router POST_item req w))
  /\ store (snd (router POST_item req w))
     = mkDb (rows (store w) ++ [mkItem (next_id (store w)) nm (Some ds)])
            (next_id (store w))
  /\ fault_free (snd (router POST_item req w)).
Proof.
  intros Hr Hff Hname Hnm Hds.
  assert (H : fst (router POST_item req w)
              = json (JRow (Some (mkItem (next_id (store w)) nm (Some ds))))
              /\ rows (store (snd (router POST_item req w)))
                 = rows (store w) ++ [mkItem (next_id (store w)) nm (Some ds)]
              /\ seq (store (snd (router POST_item req w))) = next_id (store w)
              /\ fault_free (snd (router POST_item req w))).
  { destruct (in_routers _ _ _ Hr) as [-> | ->].
    - pose proof (promise_no_fault_no_500 db options POST_item req w Hff) as H500.
      destruct (createNewItem_cases db options req w nm Hname Hnm)
        as [H|[H1 [H2 H3]]]; [contradiction|].
      rewrite Hds in H1, H2. cbn [bind] in H1, H2.
      repeat split; try assumption.
      exact (proj1 (routers_keep_fault_free db options POST_item req w Hff)).
    - pose proof (callback_no_fault_no_500 db options POST_item req w Hff) as H500.
      destruct (router_post_cases db options req w nm Hname Hnm)
        as [H|[H1 [H2 H3]]]; [contradiction|].
      rewrite Hds in H1, H2. cbn [bind] in H1, H2.
      repeat split; try assumption.
      exact (proj2 (routers_keep_fault_free db options POST_item req w Hff)). }
  destruct H as [H1 [H2 [H3 H4]]].
  split; [rewrite <- H1; apply surjective_pairing|]. split; [|exact H4].
  destruct (store (snd (router POST_item req w))) as [rs sq].
  cbn [rows seq] in H2, H3. subst. reflexivity.
Qed.

Lemma get_fault_free (router : Route -> Request -> World -> Response * World)
  (req : Request) (w : World) :
  In router (routers db options) -> fault_free w ->
  router GET_item req w
  = (match find (id_is db (PText (params_id req))) (rows (store w)) with
     | Some i => json (JRow (Some i))
     | None => status_json 404 (JError "Item not found")
     end,
     snd (router GET_item req w))
  /\ store (snd (router GET_item req w)) = store w
  /\ fault_free (snd (router GET_item req w)).
Proof.
  intros Hr Hff.
  assert (Hk : fault_free (snd (router GET_item req w))).
  { destruct (in_routers _ _ _ Hr) as [-> | ->].
    - exact (proj1 (routers_keep_fault_free db options GET_item req w Hff)).
    - exact (proj2 (routers_keep_fault_free db options GET_item req w Hff)). }
  assert (H500 : status (fst (router GET_item req w)) <> 500).
  { destruct (in_routers _ _ _ Hr) as [-> | ->].
    - apply promise_no_fault_no_500, Hff.
    - apply callback_no_fault_no_500, Hff. }
  assert (E : router GET_item req w = CallbackRouter.router_get_id db req w).
  { destruct (in_routers _ _ _ Hr) as [-> | ->];
      [apply get_handlers_agree|reflexivity]. }
  rewrite E in *.
  destruct (router_get_id_cases db req w) as [Hst [H|H]]; [contradiction|].
  split; [rewrite <- H; apply surjective_pairing|]. split; assumption.
Qed.

Lemma put_fault_free (router : Route -> Request -> World -> Response * World)
  (req : Request) (w : World) nm i :
  In router (routers db options) -> fault_free w ->
  body_name req = Js.Str nm -> nm <> "" ->
  find (id_is db (PText (params_id req))) (rows (store w)) = Some i ->
  router PUT_item req w
  = (json (JRow (Some (set_fields nm (bind (body_description req)) i))),
     snd (router PUT_item req w))
  /\ store (snd (router PUT_item req w))
     = mkDb (map (fun i => if id_is db (PText (params_id req)) i
                           then set_fields nm (bind (body_description req)) i
                           else i)
                 (rows (store w)))
            (seq (store w))
  /\ fault_free (snd (router PUT_item req w)).
Proof.
  intros Hr Hff Hname Hnm Hfind.
  assert (Hh : In (router PUT_item) (update_handlers db options)).
  { destruct (in_routers _ _ _ Hr) as [-> | ->];
      [left|right; left]; reflexivity. }
  pose proof (update_fault_free db options _ req w nm Hh Hname Hnm Hff) as H.
  rewrite Hfind in H. destruct H as [H1 [H2 H3]].
  split; [rewrite <- H1; apply surjective_pairing|].
  split; [|exact (update_keeps_fault_free db options _ req w Hh Hff)].
  destruct (store (snd (router PUT_item req w))) as [rs sq].
  cbn [rows seq] in H2, H3. subst. reflexivity.
Qed.

Lemma delete_fault_free (router : Route -> Request -> World -> Response * World)
  (req : Request) (w : World) i :
  In router (routers db options) -> fault_free w ->
  find (id_is db (PText (params_id req))) (rows (store w)) = Some i ->
  router DELETE_item req w
  = (json (JMessage "Item deleted"), snd (router DELETE_item req w))
  /\ store (snd (router DELETE_item req w))
     = mkDb (filter (fun i => negb (id_is db (PText (params_id req)) i))
                    (rows (store w)))
            (seq (store w))
  /\ fault_free (snd (router DELETE_item req w)).
Proof.
  intros Hr Hff Hfind.
  assert (H : fst (router DELETE_item req w) = json (JMessage "Item deleted")
              /\ rows (store (snd (router DELETE_item req w)))
                 = filter (fun i => negb (id_is db (PText (params_id req)) i))
                          (rows (store w))
              /\ seq (store (snd (router DELETE_item req w))) = seq (store w)
              /\ fault_free (snd (router DELETE_item req w))).
  { destruct (in_routers _ _ _ Hr) as [-> | ->].
    - pose proof (promise_no_fault_no_500 db options DELETE_item req w Hff) as H500.
      destruct (deleteItem_cases db options req w) as [H|[H1 [H2 H3]]];
        [contradiction|].
      repeat split; try assumption.
      exact (proj1 (routers_keep_fault_free db options DELETE_item req w Hff)).
    - pose proof (callback_no_fault_no_500 db options DELETE_item req w Hff) as H500.
      destruct (router_delete_cases db options req w) as [H|H]; [contradiction|].
      rewrite Hfind in H. destruct H as [H1 [H2 H3]].
      repeat split; try assumption.
      exact (proj2 (routers_keep_fault_free db options DELETE_item req w Hff)). }
  destruct H as [H1 [H2 [H3 H4]]].
  split; [rewrite <- H1; apply surjective_pairing|]. split; [|exact H4].
  destruct (store (snd (router DELETE_item req w))) as [rs sq].
  cbn [rows seq] in H2, H3. subst. reflexivity.
Qed.

(** The item the script creates at index [i] in a table [d]. *)
Lemma step_fault_free (router : Route -> Request -> World -> Response * World)
  (i : nat) (w : World) (failed : nat) :
  In router (routers db options) -> fault_free w ->
  exists w',
    LoadTest.step router i w failed = Some (w', failed)
    /\ fault_free w'
    /\ seq (store w') = next_id (store w)
    /\ rows (store w')
       = rows (store w)
         ++ (if (i mod 5 =? 0)%nat then []
             else [mkItem (next_id (store w))
                     (String.append "Test Item " (LoadTest.show (Z.of_nat i)))
                     (Some (String.append "Test Description for item "
                              (LoadTest.show (Z.of_nat i))))]).
Proof.
  intros Hr Hff. unfold LoadTest.step.
  set (nm := String.append "Test Item " (LoadTest.show (Z.of_nat i))).
  set (ds := String.append "Test Description for item "
               (LoadTest.show (Z.of_nat i))).
  set (nid := next_id (store w)).
  assert (Hnid : to_integer db (LoadTest.show nid) = Some nid)
    by (apply reads_show, next_id_positive).
  destruct (post_fault_free router (body_request "" (Js.Str nm) (Js.Str ds))
              w nm ds Hr Hff eq_refl ltac:(discriminate) eq_refl)
    as [E1 [S1 F1]].
  fold nid in E1, S1. rewrite E1.
  set (w1 := snd (router POST_item _ w)) in *.
  cbn [LoadTest.parsed_id body json status item_id Z.eqb Pos.eqb andb
       LoadTest.failures filter negb List.length].
  assert (Hfind : find (id_is db (PText (LoadTest.show nid))) (rows (store w1))
                  = Some (mkItem nid nm (Some ds))).
  { rewrite S1. cbn [rows]. rewrite (find_text_id db _ _ _ Hnid).
    apply find_inserted. }
  destruct (get_fault_free router (id_request (LoadTest.show nid)) w1 Hr F1)
    as [E2 [S2 F2]].
  cbn [params_id id_request] in E2. rewrite Hfind in E2. rewrite E2.
  set (w2 := snd (router GET_item _ w1)) in *.
  cbn [LoadTest.parsed_id body json status item_id Z.eqb Pos.eqb andb
       LoadTest.failures filter negb List.length LoadTest.same_id].
  rewrite Z.eqb_refl.
  cbn [LoadTest.failures filter negb List.length].
  rewrite !Nat.add_0_r.
  destruct (i mod 5 =? 0)%nat.
  - unfold LoadTest.update_and_delete.
    set (unm := String.append "Updated Item " (LoadTest.show (Z.of_nat i))).
    set (uds := String.append "Updated Description for item "
                  (LoadTest.show (Z.of_nat i))).
    assert (Hfind2 : find (id_is db (PText (LoadTest.show nid)))
                       (rows (store w2)) = Some (mkItem nid nm (Some ds)))
      by (rewrite S2; exact Hfind).
    destruct (put_fault_free router
                (body_request (LoadTest.show nid) (Js.Str unm) (Js.Str uds))
                w2 unm _ Hr F2 eq_refl ltac:(discriminate) Hfind2)
      as [E3 [S3 F3]].
    rewrite E3.
    set (w3 := snd (router PUT_item _ w2)) in *.
    cbn [body_request params_id body_description bind] in S3.
    cbn [LoadTest.parsed_id LoadTest.parsed_name body json status item_id
         item_name set_fields Z.eqb Pos.eqb andb LoadTest.same_id
         LoadTest.same_text].
    rewrite Z.eqb_refl, String.eqb_refl.
    cbn [LoadTest.failures filter negb List.length].
    assert (Hfind3 : find (id_is db (PText (LoadTest.show nid)))
                       (rows (store w3))
                     = Some (set_fields unm (Some uds) (mkItem nid nm (Some ds)))).
    { rewrite S3. cbn [rows]. rewrite find_updated, Hfind2.
      reflexivity. }
    destruct (delete_fault_free router (id_request (LoadTest.show nid))
                w3 _ Hr F3 Hfind3) as [E4 [S4 F4]].
    rewrite E4.
    set (w4 := snd (router DELETE_item _ w3)) in *.
    cbn [LoadTest.parsed_message body json status Z.eqb Pos.eqb
         LoadTest.same_text].
    rewrite String.eqb_refl.
    cbn [LoadTest.failures filter negb List.length].
    rewrite !Nat.add_0_r.
    exists w4. split; [reflexivity|]. split; [exact F4|].
    rewrite S4, S3, S2, S1. cbn [rows seq id_request params_id].
    split; [reflexivity|].
    rewrite app_nil_r.
    assert (Hold : find (id_is db (PText (LoadTest.show nid))) (rows (store w))
                   = None) by (apply find_fresh; exact Hnid).
    rewrite map_app, filter_app, (map_unselected _ _ _ Hold),
      (filter_unselected _ _ Hold).
    cbn [map filter id_is item_id set_fields]. rewrite Hnid.
    cbn [item_id]. rewrite Z.eqb_refl. cbn [item_id negb]. 
    rewrite Z.eqb_refl. cbn [negb]. apply app_nil_r.
  - exists w2. split; [reflexivity|]. split; [exact F2|].
    rewrite S2, S1. split; reflexivity.
Qed.

Lemma max_rowid_app (rs l : list Item) :
  max_rowid (rs ++ l) = Z.max (max_rowid rs) (max_rowid l).
Proof.
  induction rs as [|r rs IH]; cbn [app max_rowid fold_right].
  - pose proof (max_rowid_nonneg l). fold (max_rowid l). lia.
  - fold (max_rowid (rs ++ l)) (max_rowid rs). rewrite IH. lia.
Qed.

(** The loop from index [i] on: every check passes, and the items kept get
    consecutive ids in the order of their creation. *)
Lemma loop_fault_free (router : Route -> Request -> World -> Response * World)
  (n : nat) :
  In router (routers db options) ->
  forall (i : nat) (w : World) (failed : nat),
    fault_free w ->
    exists w',
      LoadTest.loop router n i w failed = Some (w', failed)
      /\ fault_free w'
      /\ next_id (store w') = next_id (store w) + Z.of_nat n
      /\ rows (store w')
         = rows (store w)
           ++ map (fun j => test_item (next_id (store w) + Z.of_nat (j - i)) j)
                  (kept n i).
Proof.
  intros Hr. induction n as [|n IH]; intros i w failed Hff.
  - exists w. cbn [LoadTest.loop kept List.seq filter map].
    rewrite app_nil_r, Z.add_0_r. repeat split. exact Hff.
  - cbn [LoadTest.loop].
    destruct (step_fault_free router i w failed Hr Hff)
      as [w1 [E1 [F1 [Q1 R1]]]].
    rewrite E1.
    assert (Hnext : next_id (store w1) = next_id (store w) + 1).
    { unfold next_id at 1. rewrite Q1, R1, max_rowid_app.
      pose proof (next_id_above_seq (store w)) as Hs.
      assert (Hm : max_rowid (rows (store w)) < next_id (store w))
        by (unfold next_id; lia).
      pose proof (max_rowid_nonneg (rows (store w))).
      destruct (i mod 5 =? 0)%nat; cbn [max_rowid fold_right item_id]; lia. }
    destruct (IH (S i) w1 failed F1) as [w' [E [F [N R]]]].
    exists w'. split; [exact E|]. split; [exact F|].
    split; [rewrite N, Hnext; lia|].
    rewrite R, R1, <- app_assoc. f_equal.
    unfold kept. cbn [List.seq filter].
    assert (Hmap : map (fun j => test_item (next_id (store w1) + Z.of_nat (j - S i)) j)
                     (filter (fun j => negb (j mod 5 =? 0)%nat) (List.seq (S i) n))
                   = map (fun j => test_item (next_id (store w) + Z.of_nat (j - i)) j)
                       (filter (fun j => negb (j mod 5 =? 0)%nat) (List.seq (S i) n))).
    { apply map_ext_in. intros j Hj. apply filter_In in Hj.
      destruct Hj as [Hj _]. apply in_seq in Hj. rewrite Hnext.
      f_equal. lia. }
    rewrite Hmap.
    destruct (i mod 5 =? 0)%nat; cbn [negb map app]; [reflexivity|].
    rewrite Nat.sub_diag, Z.add_0_r. reflexivity.
Qed.

End Load.

(** X18.  One iteration of the load script (src/unnamed/part_004), run by a
    single virtual user against either router with any options, over an
    engine that reads back the decimal ids the script writes in its URLs and
    with no storage failure: no check throws and no check fails; the
    storage stays free of failures; the table ends as it was with 80 more
    rows, the items of the indices that are not multiples of 5, in
    the order of their creation, with the ids assigned to them: the items
    created at the 20 multiples of 5 (20 of 100, not the 30 of the script's
    comment) were updated and deleted. *)
Theorem load_test_passes (db : Engine) (options : Options)
  (router : Route -> Request -> World -> Response * World) (w : World) :
  (forall z, 0 < z -> to_integer db (LoadTest.show z) = Some z) ->
  In router (routers db options) ->
  fault_free w ->
  exists w',
    LoadTest.iteration router w = Some (w', 0%nat)
    /\ fault_free w'
    /\ rows (store w')
       = rows (store w)
         ++ map (fun j => test_item (next_id (store w) + Z.of_nat j) j)
                (kept 100 0)
    /\ List.length (rows (store w')) = (List.length (rows (store w)) + 80)%nat.
Proof.
  intros Hshow Hr Hff. unfold LoadTest.iteration.
  destruct (loop_fault_free db options Hshow router 100 Hr 0%nat w 0%nat Hff)
    as [w' [E [F [_ R]]]].
  exists w'. split; [exact E|]. split; [exact F|].
  assert (R' : rows (store w')
               = rows (store w)
                 ++ map (fun j => test_item (next_id (store w) + Z.of_nat j) j)
                        (kept 100 0)).
  { rewrite R. f_equal. }
  split; [exact R'|].
  rewrite R', length_app, length_map. vm_compute (List.length (kept 100 0)).
  reflexivity.
Qed.

Lemma load_test_passes_witness :
  exists w',
    LoadTest.iteration
      (CallbackRouter.itemsRouter LoadTest.decimal_text_engine retry_options)
      three_items = Some (w', 0%nat)
    /\ fault_free w'
    /\ rows (store w')
       = rows (store three_items)
         ++ map (fun j => test_item (next_id (store three_items) + Z.of_nat j) j)
                (kept 100 0)
    /\ List.length (rows (store w')) = (List.length (rows (store three_items)) + 80)%nat.
Proof.
  apply (load_test_passes LoadTest.decimal_text_engine retry_options).
  - exact show_read_back.
  - right. left. reflexivity.
  - reflexivity.
Defined.
